(** * keystone: the [scan] command (cli/cmd/scan.go)

    A shallow embedding of the lockfile extractor [extractNpmPackages] and
    of the scan routine of [scanCmd], with the properties of both.

    Go strings are byte sequences: they are embedded as [string] (a list
    of 8-bit [ascii] bytes), Go's [int] as [Z], and Go's [+] on strings
    as [+:+].  A JSON document decoded into [map[string]any] is a [gmap]
    from strings to the generic value type [any]. *)

From Stdlib Require Import ZArith Lia Strings.Ascii Floats.SpecFloat.
From stdpp Require Import gmap strings list fin_maps.

Local Open Scope Z_scope.

(** ** The parts of Go's [strings] package the command calls *)

Module strings.

(** [len(s)]: the number of bytes of [s]. *)
Definition len (s : string) : Z := Z.of_nat (String.length s).

Fixpoint take (n : nat) (s : string) : string :=
  match n, s with
  | S k, String c s' => String c (take k s')
  | _, _ => ""
  end.

Fixpoint drop (n : nat) (s : string) : string :=
  match n, s with
  | S k, String _ s' => drop k s'
  | _, _ => s
  end.

(** The slices [s[:j]] and [s[i:]].  Go panics when the bound is
    outside [0 .. len(s)]; every slice of the command is taken inside
    that range (see [Index_bounds] and the guard of the summary). *)
Definition slice_to (s : string) (j : Z) : string := take (Z.to_nat j) s.
Definition slice_from (s : string) (i : Z) : string := drop (Z.to_nat i) s.

(** [strings.HasPrefix(s, prefix)] *)
Fixpoint HasPrefix (s prefix : string) {struct prefix} : bool :=
  match prefix, s with
  | EmptyString, _ => true
  | String _ _, EmptyString => false
  | String p prefix', String c s' => Ascii.eqb c p && HasPrefix s' prefix'
  end.

(** [strings.TrimPrefix(s, prefix)]: [s] without the leading [prefix],
    and [s] itself when it does not start with [prefix]. *)
Definition TrimPrefix (s prefix : string) : string :=
  if HasPrefix s prefix then slice_from s (len prefix) else s.

(** [strings.Index(s, substr)]: the byte index of the first instance
    of [substr] in [s], or [-1]. *)
Fixpoint Index (s substr : string) : Z :=
  if HasPrefix s substr then 0
  else match s with
       | EmptyString => -1
       | String _ s' => let i := Index s' substr in
                        if i <? 0 then -1 else 1 + i
       end.

(** [strings.Count(s, substr)] for a non-empty [substr]: the number of
    non-overlapping instances of [substr] in [s].  After an instance
    at the head, the [length substr - 1] bytes that follow belong to
    it and are skipped.  (For an empty [substr] Go counts code points;
    the command only counts the one-byte separators "/" and "\n".) *)
Fixpoint count_from (skip : nat) (s substr : string) : Z :=
  match s with
  | EmptyString => 0
  | String _ s' =>
      match skip with
      | S k => count_from k s' substr
      | O => if HasPrefix s substr
             then 1 + count_from (String.length substr - 1) s' substr
             else count_from 0 s' substr
      end
  end.

Definition Count (s substr : string) : Z := count_from 0 s substr.

(** The loop of [genSplit]: at most [k] cuts at [sep], the rest of
    the string is the last element. *)
Fixpoint split_loop (k : nat) (s sep : string) : list string :=
  match k with
  | O => [s]
  | S k' =>
      let m := Index s sep in
      if m <? 0 then [s]
      else slice_to s m :: split_loop k' (slice_from s (m + len sep)) sep
  end.

(** [strings.SplitN(s, sep, n)] for a non-empty [sep]: [nil] for
    [n == 0], all the substrings for [n < 0], and at most [n]
    substrings otherwise, the last one being the unsplit remainder. *)
Definition SplitN (s sep : string) (n : Z) : list string :=
  if n =? 0 then []
  else
    let n := if n <? 0 then Count s sep + 1 else n in
    let n := if len s + 1 <? n then len s + 1 else n in
    split_loop (Z.to_nat (n - 1)) s sep.

(** [strings.Split(s, sep)] *)
Definition Split (s sep : string) : list string := SplitN s sep (-1).

(** *** [strings.TrimSpace] *)

(** The ASCII white space: '\t', '\n', '\v', '\f', '\r', ' '. *)
Definition asciiSpace (c : ascii) : bool :=
  let n := nat_of_ascii c in
  ((9 <=? n)%nat && (n <=? 13)%nat) || (n =? 32)%nat.

(** The string made of the given byte values. *)
Definition bytes (l : list Z) : string :=
  String.string_of_list_ascii ((fun b => ascii_of_N (Z.to_N b)) <$> l).

(** The UTF-8 encodings of the other code points of Unicode's
    White_Space property, which [unicode.IsSpace] accepts: U+0085,
    U+00A0, U+1680, U+2000 to U+200A, U+2028, U+2029, U+202F, U+205F
    and U+3000. *)
Definition unicodeSpaces : list string :=
  [bytes [194; 133]; bytes [194; 160]; bytes [225; 154; 128]]
  ++ ((fun k => bytes [226; 128; 128 + k]) <$> seqZ 0 11)
  ++ [bytes [226; 128; 168]; bytes [226; 128; 169]; bytes [226; 128; 175];
      bytes [226; 129; 159]; bytes [227; 128; 128]].

(** The width in bytes of the white-space code point at the head of
    [s], [0] when [s] does not start with one.  [encs] lists the
    encodings of the code points beyond ASCII. *)
Definition space_width (encs : list string) (s : string) : nat :=
  match s with
  | EmptyString => 0
  | String c _ =>
      if asciiSpace c then 1
      else match List.find (HasPrefix s) encs with
           | Some enc => String.length enc
           | None => 0
           end
  end.

(** Drop white-space code points from the head for as long as there
    is one; [skip] counts the bytes of the current one still to drop. *)
Fixpoint trim_head (encs : list string) (skip : nat) (s : string) : string :=
  match s with
  | EmptyString => ""
  | String _ s' =>
      match skip with
      | S k => trim_head encs k s'
      | O => match space_width encs s with
             | O => s
             | S k => trim_head encs k s'
             end
      end
  end.

(** [strings.TrimSpace(s)]: [s] without leading and trailing white
    space.  The trailing code points are the leading ones of the
    reversed string, with the bytes of each encoding reversed. *)
Definition TrimSpace (s : string) : string :=
  let s := trim_head unicodeSpaces 0 s in
  String.rev (trim_head (String.rev <$> unicodeSpaces) 0 (String.rev s)).

End strings.

(** ** Data model *)

(** A value decoded from JSON into Go's [any]: [nil], [bool], [float64],
    [string], [[]any] or [map[string]any]. *)
#[warning="-register-all"] Inductive any : Type :=
  | ANil
  | ABool (b : bool)
  | ANumber (f : spec_float)
  | AString (s : string)
  | ASlice (l : list any)
  | AMap (m : gmap string any).

(** [type dep struct { name string; version string }] *)
Record dep : Type := Dep { name : string; version : string }.

(** ** The lockfile extractor *)

(** [ver, _ := entry["version"].(string)]: the field when it is there
    and holds a string, and the zero value [""] otherwise. *)
Definition entry_version (entry : gmap string any) : string :=
  match entry !! "version" with
  | Some (AString ver) => ver
  | _ => ""
  end.

(** Lines 146 to 156: the package name taken from the key [k] of the
    "packages" map. *)
Definition package_name (k : string) : string :=
  let name := strings.TrimPrefix k "node_modules/" in
  if strings.HasPrefix name "@" && (1 <=? strings.Count name "/") then
    let parts := strings.SplitN name "/" 2 in
    match parts with
    | [p0; p1] => p0 +:+ "/" +:+ p1
    | _ => name
    end
  else
    let i := strings.Index name "/" in
    if (0 <=? i) && negb (strings.HasPrefix name "@")
    then strings.slice_to name i
    else name.

(** The body of the loop over the "packages" map, from the slice [out]
    built so far to the slice after the entry [(k, v)]; a [continue]
    leaves [out] as it is. *)
Definition extract_entry (out : list dep) (kv : string * any) : list dep :=
  let (k, v) := kv in
  match v with
  | AMap entry =>
      let ver := entry_version entry in
      if decide (k = "") then out
      else
        let name := package_name k in
        out ++ [Dep name ver]
  | _ => out
  end.

(** The loop run over the entries in the order [entries].  Go leaves the
    iteration order of a map unspecified. *)
Definition extract_range (entries : list (string * any)) : list dep :=
  fold_left extract_entry entries [].

(** [func extractNpmPackages(lock map[string]any) []dep].  The entries
    are visited in the order of [map_to_list]; the properties below
    speak of membership and hold for every order (see
    [extract_range_Permutation] and [extract_any_order]). *)
Definition extractNpmPackages (lock : gmap string any) : list dep :=
  match lock !! "packages" with
  | None => []
  | Some packagesAny =>
      match packagesAny with
      | AMap packages => extract_range (map_to_list packages)
      | _ => []
      end
  end.

(** What one entry of the "packages" map adds to the result: nothing
    for the root key and for a value that is not a record. *)
Definition dep_of_entry (kv : string * any) : option dep :=
  match kv.2 with
  | AMap entry =>
      if decide (kv.1 = "") then None
      else Some (Dep (package_name kv.1) (entry_version entry))
  | _ => None
  end.

(** Documents used in the examples. *)
Definition record (ver : string) : any := AMap {[ "version" := AString ver ]}.

Definition lock_left_pad : gmap string any :=
  {[ "name" := AString "demo";
     "lockfileVersion" := ANumber (S754_finite false 3 0);
     "packages" := AMap {[ "" := record "1.0.0";
                           "node_modules/left-pad" := record "1.3.0" ]} ]}.

Definition lock_nested_scoped : gmap string any :=
  {[ "packages" :=
       AMap {[ "node_modules/@scope/pkg/node_modules/other" := record "2.0.0" ]} ]}.

(** ** The scan routine *)

(** The message of a Go [error]. *)
Definition error : Type := string.

(** A Go call returning [(value, err)]: the value when [err == nil]. *)
Inductive result (A : Type) : Type :=
  | Ok (a : A)
  | Err (err : error).
Arguments Ok {A} a.
Arguments Err {A} err.

(** [type osvQuery struct] with its anonymous [Package] struct. *)
Record osvPackage : Type := { Ecosystem : string; Name : string }.
Record osvQuery : Type := { Package : osvPackage; Version : string }.

(** [type osvResp struct { Vulns []struct{ ID, Summary string } }] *)
Record osvVuln : Type := { ID : string; Summary : string }.
Record osvResp : Type := { Vulns : list osvVuln }.

(** What lies outside the program: the file system, the JSON decoder of
    [encoding/json] and the OSV service.
    - [Clean] is [filepath.Clean];
    - [ReadFile] is [os.ReadFile];
    - [json_decode data] is [json.Unmarshal(data, &v)] for a [v] of type
      [any]: the generic value of a JSON text, and an error for a text
      the decoder rejects, which is a text that is not valid JSON or a
      valid one that holds a number outside the range of [float64];
    - [Post n q] is the [n]-th call (from 0) of [http.Post] on the
      query [q], followed by [io.ReadAll] on the body of the response:
      a transport error or the bytes read;
    - [Unmarshal_osvResp body] is [json.Unmarshal(body, &or)]. *)
Record World : Type := {
  Clean : string -> string;
  ReadFile : string -> result string;
  json_decode : string -> result any;
  Post : nat -> osvQuery -> result string;
  Unmarshal_osvResp : string -> result osvResp
}.

(** The name [encoding/json] gives to the kind of a JSON value in its
    errors. *)
Definition json_kind (v : any) : string :=
  match v with
  | ANil => "null"
  | ABool _ => "bool"
  | ANumber _ => "number"
  | AString _ => "string"
  | ASlice _ => "array"
  | AMap _ => "object"
  end.

(** [json.Unmarshal(data, &lock)] for [lock] of type [map[string]any]: a
    JSON object fills the map, [null] leaves it [nil] (empty for every
    read), and any other JSON value is an [UnmarshalTypeError]. *)
Definition Unmarshal_lock (w : World) (data : string) : result (gmap string any) :=
  match json_decode w data with
  | Err err => Err err
  | Ok (AMap m) => Ok m
  | Ok ANil => Ok ∅
  | Ok v => Err ("json: cannot unmarshal " +:+ json_kind v
                 +:+ " into Go value of type map[string]interface {}")
  end.

(** A line written to the standard output, named after the statement
    that prints it: the two fatal errors (lines 42 and 48), the warning
    of line 55, the header of line 59, the two failures of a query
    (lines 77 and 85), the header of a vulnerable package (line 91),
    one vulnerability with its identifier and short summary (line 98),
    and the closing line of a clean scan (line 104). *)
Inductive line : Type :=
  | ErrorReadingLockfile (err : error)
  | InvalidJSON (err : error)
  | NoDependenciesFound
  | Scanning (n : Z) (lockfilePath : string)
  | QueryFailed (name version : string) (err : error)
  | BadResponse (name version : string) (err : error)
  | Vulnerable (name version : string) (n : Z)
  | VulnLine (id s : string)
  | NoKnownVulnerabilities.

(** The ellipsis U+2026 in UTF-8, and the line feed. *)
Definition ellipsis : string := strings.bytes [226; 128; 166].
Definition LF : string := strings.bytes [10].

(** Lines 94 to 97: the summary as it is printed. *)
Definition short_summary (summary : string) : string :=
  let s := hd "" (strings.Split (strings.TrimSpace summary) LF) in
  if 110 <? strings.len s then strings.slice_to s 110 +:+ ellipsis else s.

(** The state the loop over the dependencies threads: the lines printed
    so far, the queries posted so far, and [vulnCount]. *)
Record scan_state : Type := {
  printed : list line;
  posted : list osvQuery;
  vulnCount : Z
}.

(** The state after printing the lines [ls], and after posting [q]. *)
Definition emit (st : scan_state) (ls : list line) : scan_state :=
  {| printed := printed st ++ ls; posted := posted st; vulnCount := vulnCount st |}.

Definition sent (st : scan_state) (q : osvQuery) : scan_state :=
  {| printed := printed st; posted := posted st ++ [q]; vulnCount := vulnCount st |}.

(** The query built for a dependency. *)
Definition query_of (d : dep) : osvQuery :=
  {| Package := {| Ecosystem := "npm"; Name := name d |}; Version := version d |}.

(** The body of the loop over [deps] (lines 62 to 101). *)
Definition scan_dep (w : World) (st : scan_state) (d : dep) : scan_state :=
  if bool_decide (name d = "") || bool_decide (version d = "") then st
  else
    let q := query_of d in
    match Post w (length (posted st)) q with
    | Err err => emit (sent st q) [QueryFailed (name d) (version d) err]
    | Ok body =>
        match Unmarshal_osvResp w body with
        | Err err => emit (sent st q) [BadResponse (name d) (version d) err]
        | Ok or =>
            let n := Z.of_nat (length (Vulns or)) in
            if 0 <? n then
              let st := emit (sent st q)
                          (Vulnerable (name d) (version d) n
                           :: ((fun v => VulnLine (ID v) (short_summary (Summary v)))
                               <$> Vulns or)) in
              {| printed := printed st; posted := posted st;
                 vulnCount := vulnCount st + n |}
            else sent st q
        end
    end.

Definition scan_loop (w : World) (deps : list dep) (st : scan_state) : scan_state :=
  fold_left (scan_dep w) deps st.

(** How a run of the command ends: [Run] returns, or [os.Exit(code)]. *)
Inductive status : Type :=
  | Returned
  | Exit (code : Z).

Record run : Type := {
  output : list line;
  requests : list osvQuery;
  exit : status
}.

(** The [Run] function of [scanCmd], on its one argument. *)
Definition scanCmd_Run (w : World) (arg : string) : run :=
  let lockfilePath := Clean w arg in
  match ReadFile w lockfilePath with
  | Err err =>
      {| output := [ErrorReadingLockfile err]; requests := []; exit := Exit 1 |}
  | Ok data =>
      match Unmarshal_lock w data with
      | Err err => {| output := [InvalidJSON err]; requests := []; exit := Exit 1 |}
      | Ok lock =>
          let deps := extractNpmPackages lock in
          if Z.of_nat (length deps) =? 0 then
            {| output := [NoDependenciesFound]; requests := []; exit := Returned |}
          else
            let st := scan_loop w deps
                        {| printed := [Scanning (Z.of_nat (length deps)) lockfilePath];
                           posted := []; vulnCount := 0 |} in
            {| output := printed st
                         ++ (if vulnCount st =? 0 then [NoKnownVulnerabilities] else []);
               requests := posted st;
               exit := Returned |}
      end
  end.

(** Modelled from the spec: the [main] function and [rootCmd] that call
    [Run] are not among the sources.  The exit code of the process is
    the argument of [os.Exit], and 0 when [Run] returns. *)
Definition exit_code (r : run) : Z :=
  match exit r with
  | Exit code => code
  | Returned => 0
  end.

(** The first line of a text: the text itself when it holds no line
    feed, and what comes before the first one otherwise. *)
Definition first_line (t : string) : string :=
  if strings.Index t LF <? 0 then t else strings.slice_to t (strings.Index t LF).

(** The dependencies the loop queries: name and version both there. *)
Definition queried (d : dep) : Prop := name d <> "" /\ version d <> "".

#[global] Instance queried_dec d : Decision (queried d).
Proof. unfold queried. apply _. Defined.

(** The number of characters of a UTF-8 text, as a reader counts them:
    every byte starts a code point but the continuation bytes
    (0x80 to 0xBF).  On ASCII text it is the number of bytes. *)
Fixpoint utf8_chars (s : string) : nat :=
  match s with
  | EmptyString => 0
  | String c s' =>
      let b := nat_of_ascii c in
      (if (128 <=? b)%nat && (b <? 192)%nat then 0 else 1) + utf8_chars s'
  end.

(** [n] copies of [s]. *)
Fixpoint repeat_string (n : nat) (s : string) : string :=
  match n with
  | O => ""
  | S k => s +:+ repeat_string k s
  end.

(** More documents and texts used in the examples. *)
Definition lock_nested_unscoped : gmap string any :=
  {[ "packages" := AMap {[ "node_modules/foo" := record "1.0.0";
                           "node_modules/foo/node_modules/bar" := record "2.5.1" ]} ]}.

Definition lock_no_version : gmap string any :=
  {[ "packages" := AMap {[ "node_modules/b" := AMap {[ "version" := ANumber (S754_finite false 3 0) ]} ]} ]}.

Definition lock_bare_keys : gmap string any :=
  {[ "packages" := AMap {[ "packages/app/lib" := record "0.3.0" ]} ]}.

Definition summary_accents : string := repeat_string 56 (strings.bytes [195; 169]).

(** A summary of 110 characters on one line: 109 times the letter x and
    the letter e with an acute accent, U+00E9, which UTF-8 encodes on
    the two bytes C3 A9. *)
Definition summary_accent_last : string :=
  repeat_string 109 "x" +:+ strings.bytes [195; 169].

(** Worlds used in the examples.  In [world_array] the lockfile holds
    the JSON text of an empty array.  In [world_offline] it holds the
    document [lock_left_pad] and no request reaches the service. *)
Definition world_array : World :=
  {| Clean := fun p => p;
     ReadFile := fun _ => Ok "[]";
     json_decode := fun data =>
       if decide (data = "[]") then Ok (ASlice [])
       else Err "invalid character looking for beginning of value";
     Post := fun _ _ => Err "dial tcp: no route to host";
     Unmarshal_osvResp := fun _ => Err "unexpected end of JSON input" |}.

Definition world_offline : World :=
  {| Clean := fun p => p;
     ReadFile := fun _ => Ok "{...}";
     json_decode := fun _ => Ok (AMap lock_left_pad);
     Post := fun _ _ => Err "dial tcp: no route to host";
     Unmarshal_osvResp := fun _ => Err "unexpected end of JSON input" |}.

(** In [world_gateway] the first request fails in transport, the second
    is answered by a page that is not JSON, and the later ones by one
    vulnerability with a long summary. *)
Definition lock_three : gmap string any :=
  {[ "packages" := AMap {[ "" := record "0.1.0";
                           "node_modules/a" := record "1.0.0";
                           "node_modules/b" := AMap ∅;
                           "node_modules/c" := record "3.0.0";
                           "node_modules/d" := record "4.0.0" ]} ]}.

Definition world_gateway : World :=
  {| Clean := fun p => p;
     ReadFile := fun _ => Ok "{...}";
     json_decode := fun _ => Ok (AMap lock_three);
     Post := fun n _ =>
       match n with
       | O => Err "context deadline exceeded"
       | 1%nat => Ok "<html>502 Bad Gateway</html>"
       | _ => Ok "{...}"
       end;
     Unmarshal_osvResp := fun body =>
       if decide (body = "{...}")
       then Ok {| Vulns := [ {| ID := "GHSA-0000"; Summary := repeat_string 40 "long " |} ] |}
       else Err "invalid character '<' looking for beginning of value" |}.

(** In [world_accent_last] the lockfile holds [lock_left_pad] and the
    service answers one vulnerability whose summary is
    [summary_accent_last]. *)
Definition world_accent_last : World :=
  {| Clean := fun p => p;
     ReadFile := fun _ => Ok "{...}";
     json_decode := fun _ => Ok (AMap lock_left_pad);
     Post := fun _ _ => Ok "{...}";
     Unmarshal_osvResp := fun _ =>
       Ok {| Vulns := [ {| ID := "GHSA-0002"; Summary := summary_accent_last |} ] |} |}.

(** In [world_huge_number] the lockfile holds a JSON object, valid as
    JSON, with a number that no [float64] holds; the decoder answers
    the error of [encoding/json] for it. *)
Definition text_huge_number : string :=
  "{" +:+ strings.bytes [34] +:+ "packages" +:+ strings.bytes [34] +:+ ":{},"
  +:+ strings.bytes [34] +:+ "n" +:+ strings.bytes [34] +:+ ":1e999}".

Definition world_huge_number : World :=
  {| Clean := fun p => p;
     ReadFile := fun _ => Ok text_huge_number;
     json_decode := fun _ =>
       Err "json: cannot unmarshal number 1e999 into Go value of type float64";
     Post := fun _ _ => Err "dial tcp: no route to host";
     Unmarshal_osvResp := fun _ => Err "unexpected end of JSON input" |}.

(** In [world_left_pad] the lockfile holds [lock_left_pad] and the
    service answers one vulnerability whose summary has 200 bytes. *)
Definition world_left_pad : World :=
  {| Clean := fun p => p;
     ReadFile := fun _ => Ok "{...}";
     json_decode := fun _ => Ok (AMap lock_left_pad);
     Post := fun _ _ => Ok "{...}";
     Unmarshal_osvResp := fun _ =>
       Ok {| Vulns := [ {| ID := "GHSA-0001"; Summary := repeat_string 200 "x" |} ] |} |}.

(** ** Notions used in the further properties *)

(** The values that pass the assertion [v.(map[string]any)]. *)
Definition is_map (v : any) : bool :=
  match v with
  | AMap _ => true
  | _ => false
  end.

(** The entries of the "packages" map that give a dependency: a record
    under a key other than the root's. *)
Definition yields_dep (kv : string * any) : Prop := kv.1 <> "" /\ is_map kv.2 = true.

#[global] Instance yields_dep_dec kv : Decision (yields_dep kv).
Proof. unfold yields_dep. apply _. Defined.

(** What the loop over the dependencies keeps true of its state: the
    count is positive exactly when a header of a vulnerable package has
    been printed, and the closing line is not printed by the loop. *)
Definition count_inv (st : scan_state) : Prop :=
  0 <= vulnCount st
  /\ (vulnCount st = 0 <-> forall n v c, Vulnerable n v c ∉ printed st)
  /\ NoKnownVulnerabilities ∉ printed st.

(** Two states that report the same: the same lines and the same
    queries, up to their order, and the same count. *)
Definition same_report (st1 st2 : scan_state) : Prop :=
  printed st1 ≡ₚ printed st2 /\ posted st1 ≡ₚ posted st2
  /\ vulnCount st1 = vulnCount st2.

(** Further documents and worlds used in the examples.  [world_null]
    holds the JSON text null; in [world_clean] every answer is an empty
    list of vulnerabilities; in [world_no_versions] no record has a
    version. *)
Definition lock_mixed : gmap string any :=
  {[ "packages" := AMap {[ "" := record "0.1.0";
                           "node_modules/a" := record "1.0.0";
                           "node_modules/b" := AString "1.0.0";
                           "node_modules/@s/p" := record "2.0.0" ]} ]}.

Definition lock_no_versions : gmap string any :=
  {[ "packages" := AMap {[ "" := record "0.1.0";
                           "node_modules/a" := AMap ∅;
                           "node_modules/b" := AMap {[ "version" := ANil ]} ]} ]}.

Definition world_null : World :=
  {| Clean := fun p => p;
     ReadFile := fun _ => Ok "null";
     json_decode := fun _ => Ok ANil;
     Post := fun _ _ => Err "dial tcp: no route to host";
     Unmarshal_osvResp := fun _ => Err "unexpected end of JSON input" |}.

Definition world_clean : World :=
  {| Clean := fun p => p;
     ReadFile := fun _ => Ok "{...}";
     json_decode := fun _ => Ok (AMap lock_three);
     Post := fun _ _ => Ok "{}";
     Unmarshal_osvResp := fun _ => Ok {| Vulns := [] |} |}.

Definition world_no_versions : World :=
  {| Clean := fun p => p;
     ReadFile := fun _ => Ok "{...}";
     json_decode := fun _ => Ok (AMap lock_no_versions);
     Post := fun _ _ => Ok "{}";
     Unmarshal_osvResp := fun _ => Ok {| Vulns := [] |} |}.

(** ** Examples *)

Example ex_HasPrefix_scoped : strings.HasPrefix "@scope/pkg" "@" = true.
Proof. reflexivity. Qed.

Example ex_TrimPrefix_lodash :
  strings.TrimPrefix "node_modules/lodash" "node_modules/" = "lodash".
Proof. reflexivity. Qed.

Example ex_Index_nested : strings.Index "foo/node_modules/bar" "/" = 3.
Proof. reflexivity. Qed.

Example ex_Index_absent : strings.Index "lodash" "/" = -1.
Proof. reflexivity. Qed.

Example ex_Count_nested : strings.Count "@scope/pkg/node_modules/other" "/" = 3.
Proof. reflexivity. Qed.

Example ex_SplitN_scoped :
  strings.SplitN "@scope/pkg/node_modules/other" "/" 2
  = ["@scope"; "pkg/node_modules/other"].
Proof. reflexivity. Qed.

Example ex_Split_lines :
  strings.Split ("one" +:+ strings.bytes [10] +:+ "two" +:+ strings.bytes [10])
                (strings.bytes [10])
  = ["one"; "two"; ""].
Proof. reflexivity. Qed.

Example ex_Split_empty : strings.Split "" "/" = [""].
Proof. reflexivity. Qed.

Example ex_TrimSpace_ascii :
  strings.TrimSpace (strings.bytes [32; 9; 10] +:+ "two words" +:+ strings.bytes [13; 10; 32])
  = "two words".
Proof. reflexivity. Qed.

Example ex_TrimSpace_unicode :
  strings.TrimSpace (strings.bytes [226; 128; 131] +:+ "x" +:+ strings.bytes [194; 160; 32])
  = "x".
Proof. reflexivity. Qed.

Example ex_extract_left_pad :
  extractNpmPackages lock_left_pad = [Dep "left-pad" "1.3.0"].
Proof. vm_compute. reflexivity. Qed.

Example ex_package_name_lodash : package_name "node_modules/lodash" = "lodash".
Proof. reflexivity. Qed.

Example ex_package_name_scoped : package_name "node_modules/@scope/pkg" = "@scope/pkg".
Proof. reflexivity. Qed.

Example ex_package_name_nested :
  package_name "node_modules/foo/node_modules/bar" = "foo".
Proof. reflexivity. Qed.

Example ex_extract_three :
  extractNpmPackages lock_three
  ≡ₚ [Dep "a" "1.0.0"; Dep "b" ""; Dep "c" "3.0.0"; Dep "d" "4.0.0"].
Proof.
  assert (extractNpmPackages lock_three
          = [Dep "c" "3.0.0"; Dep "a" "1.0.0"; Dep "b" ""; Dep "d" "4.0.0"]) as ->
    by (by vm_compute).
  by rewrite (Permutation_swap (Dep "a" "1.0.0") (Dep "c" "3.0.0")),
             (Permutation_swap (Dep "b" "") (Dep "c" "3.0.0")).
Qed.

Example ex_short_summary_lines :
  short_summary (" first line" +:+ LF +:+ "second line" +:+ LF) = "first line".
Proof. reflexivity. Qed.

Example ex_run_left_pad :
  scanCmd_Run world_left_pad "package-lock.json"
  = {| output := [Scanning 1 "package-lock.json";
                  Vulnerable "left-pad" "1.3.0" 1;
                  VulnLine "GHSA-0001" (repeat_string 110 "x" +:+ ellipsis)];
       requests := [query_of (Dep "left-pad" "1.3.0")];
       exit := Returned |}.
Proof. by vm_compute. Qed.

Example ex_run_offline :
  scanCmd_Run world_offline "package-lock.json"
  = {| output := [Scanning 1 "package-lock.json";
                  QueryFailed "left-pad" "1.3.0" "dial tcp: no route to host";
                  NoKnownVulnerabilities];
       requests := [query_of (Dep "left-pad" "1.3.0")];
       exit := Returned |}.
Proof. by vm_compute. Qed.

Example ex_run_gateway :
  output (scanCmd_Run world_gateway "package-lock.json")
  = [Scanning 4 "package-lock.json";
     QueryFailed "c" "3.0.0" "context deadline exceeded";
     BadResponse "a" "1.0.0" "invalid character '<' looking for beginning of value";
     Vulnerable "d" "4.0.0" 1;
     VulnLine "GHSA-0000" (strings.slice_to (repeat_string 40 "long ") 110 +:+ ellipsis)].
Proof. by vm_compute. Qed.

(** ** Facts on the string functions *)

Section string_facts.
Import strings.

Lemma len_nonneg s : 0 <= len s.
Proof. unfold len. lia. Qed.

Lemma length_app s t :
  String.length (s +:+ t) = (String.length s + String.length t)%nat.
Proof. induction s as [|c s IH]; simpl; [done | by rewrite IH]. Qed.

Lemma len_app s t : len (s +:+ t) = len s + len t.
Proof. unfold len. rewrite length_app. lia. Qed.

Lemma take_app p s : take (String.length p) (p +:+ s) = p.
Proof. induction p as [|c p IH]; simpl; [by destruct s | by rewrite IH]. Qed.

Lemma drop_app p s : drop (String.length p) (p +:+ s) = s.
Proof. induction p as [|c p IH]; simpl; done. Qed.

Lemma take_drop n s : take n s +:+ drop n s = s.
Proof.
  revert s. induction n as [|n IH]; intros [|c s]; try done.
  change (String c (take n s +:+ drop n s) = String c s). by rewrite IH.
Qed.

Lemma take_all n s : (String.length s <= n)%nat -> take n s = s.
Proof.
  revert s. induction n as [|n IH]; intros [|c s]; simpl; intros Hn;
    try done; try lia.
  rewrite IH; [done | lia].
Qed.

Lemma length_take n s : (n <= String.length s)%nat -> String.length (take n s) = n.
Proof.
  revert s. induction n as [|n IH]; intros [|c s]; simpl; intros Hn;
    try done; try lia.
  rewrite IH; [done | lia].
Qed.

Lemma HasPrefix_app p s : HasPrefix (p +:+ s) p = true.
Proof.
  induction p as [|c p IH]; simpl; [done|].
  by rewrite Ascii.eqb_refl, IH.
Qed.

Lemma HasPrefix_inv s p :
  HasPrefix s p = true -> s = p +:+ drop (String.length p) s.
Proof.
  revert s. induction p as [|c p IH]; intros s; simpl; [done|].
  destruct s as [|d s]; [done|]. intros [Hc Hp]%andb_true_iff.
  apply Ascii.eqb_eq in Hc as ->. change (String c s = String c (p +:+ drop (String.length p) s)). f_equal. by apply IH.
Qed.

Lemma HasPrefix_cons c s p :
  HasPrefix (String c s) (String c p) = HasPrefix s p.
Proof. simpl. by rewrite Ascii.eqb_refl. Qed.

Lemma HasPrefix_byte d s c : HasPrefix (String d s) (String c "") = Ascii.eqb d c.
Proof. simpl. apply andb_true_r. Qed.

Lemma TrimPrefix_app p s : TrimPrefix (p +:+ s) p = s.
Proof.
  unfold TrimPrefix, slice_from, len. rewrite HasPrefix_app, Nat2Z.id.
  apply drop_app.
Qed.

Lemma TrimPrefix_absent s p : HasPrefix s p = false -> TrimPrefix s p = s.
Proof. unfold TrimPrefix. by intros ->. Qed.

(** [Index] answers [-1] or a position where [substr] fits in [s]. *)
Lemma Index_bounds s substr :
  Index s substr = -1 \/ 0 <= Index s substr <= len s - len substr.
Proof.
  induction s as [|c s IH]; simpl.
  - destruct substr; simpl; [right|left]; unfold len; simpl; lia.
  - destruct (HasPrefix (String c s) substr) eqn:Hp.
    + right. apply HasPrefix_inv, (f_equal len) in Hp. rewrite len_app in Hp.
      pose proof (len_nonneg (drop (String.length substr) (String c s))). lia.
    + destruct (Z.ltb_spec (Index s substr) 0); [by left|].
      right. unfold len in *. simpl String.length. lia.
Qed.

(** At a position found by [Index], the string is the slice before
    it, [substr], and the slice after it. *)
Lemma Index_cut s substr :
  0 <= Index s substr ->
  s = slice_to s (Index s substr) +:+ substr
      +:+ slice_from s (Index s substr + len substr).
Proof.
  unfold slice_to, slice_from, len.
  induction s as [|c s IH]; cbn [Index].
  - destruct (HasPrefix "" substr) eqn:Hp; [|lia].
    intros _. by destruct substr.
  - destruct (HasPrefix (String c s) substr) eqn:Hp.
    + intros _. rewrite Z.add_0_l, Nat2Z.id. by apply HasPrefix_inv.
    + cbv zeta. destruct (Z.ltb_spec (Index s substr) 0); [lia|]. intros _.
      replace (Z.to_nat (1 + Index s substr)) with (S (Z.to_nat (Index s substr))) by lia.
      replace (Z.to_nat (1 + Index s substr + Z.of_nat (String.length substr)))
        with (S (Z.to_nat (Index s substr + Z.of_nat (String.length substr)))) by lia.
      cbn [take drop]. rewrite IH at 1 by done. done.
Qed.

(** A one-byte separator is found right after a prefix that does not
    hold it. *)
Lemma Index_byte_first c a r :
  Index a (String c "") = -1 ->
  Index (a +:+ String c r) (String c "") = len a.
Proof.
  unfold len. induction a as [|d a IH].
  - intros _. change ("" +:+ String c r) with (String c r).
    cbn [Index]. by rewrite HasPrefix_cons.
  - change (String d a +:+ String c r) with (String d (a +:+ String c r)).
    cbn [Index]. rewrite !HasPrefix_byte.
    destruct (Ascii.eqb d c); [done|]. cbv zeta.
    destruct (Z.ltb_spec (Index a (String c "")) 0) as [Hlt|Hge]; [|lia].
    intros _. rewrite IH.
    + destruct (Z.ltb_spec (Z.of_nat (String.length a)) 0);
        cbn [String.length]; lia.
    + destruct (Index_bounds a (String c "")); lia.
Qed.

(** [Count] is positive as soon as [Index] finds an instance. *)
Lemma count_from_nonneg k s substr : 0 <= count_from k s substr.
Proof.
  revert k. induction s as [|c s IH]; intros k; simpl; [lia|].
  destruct k; [|apply IH].
  destruct (HasPrefix _ _); [|apply IH].
  pose proof (IH (String.length substr - 1)%nat). lia.
Qed.

Lemma Index_Count s substr :
  substr <> "" -> 0 <= Index s substr -> 1 <= Count s substr.
Proof.
  intros Hne. unfold Count. induction s as [|c s IH]; simpl.
  - destruct substr; [done|]. simpl. lia.
  - destruct (HasPrefix (String c s) substr) eqn:Hp.
    + intros _. pose proof (count_from_nonneg (String.length substr - 1) s substr). lia.
    + destruct (Z.ltb_spec (Index s substr) 0); [lia|]. intros _. apply IH. lia.
Qed.

(** [Split] never answers an empty slice, so that its element [0]
    is there; it is the part of [s] before the first separator. *)
Lemma Split_head s sep :
  sep <> "" ->
  exists rest,
    Split s sep = (if Index s sep <? 0 then s else slice_to s (Index s sep)) :: rest.
Proof.
  intros Hne. unfold Split, SplitN.
  change (-1 =? 0) with false. change (-1 <? 0) with true. cbv iota.
  destruct (Z.ltb_spec (Index s sep) 0) as [Hlt|Hge].
  - destruct (Z.to_nat _); simpl; [by eexists|].
    destruct (Z.ltb_spec (Index s sep) 0); [by eexists|lia].
  - pose proof (Index_Count s sep Hne Hge) as Hc.
    assert (1 <= len s) as Hs.
    { destruct (Index_bounds s sep) as [|[_ Hb]]; [lia|].
      assert (1 <= len sep); [|lia].
      destruct sep; [done|]. unfold len. simpl. lia. }
    destruct (Z.to_nat _) as [|k] eqn:Hk.
    + revert Hk. destruct (Z.ltb_spec (len s + 1) (Count s sep + 1)); lia.
    + simpl. destruct (Z.ltb_spec (Index s sep) 0); [lia|]. by eexists.
Qed.

(** Cutting in two at the first separator and joining the two parts
    with the separator gives the string back. *)
Lemma SplitN_2_join s sep p0 p1 :
  SplitN s sep 2 = [p0; p1] -> p0 +:+ sep +:+ p1 = s.
Proof.
  unfold SplitN. change (2 =? 0) with false. change (2 <? 0) with false. cbv iota.
  destruct (Z.ltb_spec (len s + 1) 2) as [Hlt|Hge].
  - replace (Z.to_nat (len s + 1 - 1)) with 0%nat by (pose proof (len_nonneg s); lia).
    done.
  - simpl. destruct (Z.ltb_spec (Index s sep) 0) as [|Hi]; [done|].
    intros [= <- <-]. symmetry. by apply Index_cut.
Qed.

End string_facts.

(** ** Facts on the extractor *)

Section name_facts.
Import strings.

(** A name that starts with '@' goes through unchanged: the scoped
    branch cuts it at the first "/" and joins the two parts again. *)
Lemma package_name_scoped k :
  HasPrefix (TrimPrefix k "node_modules/") "@" = true ->
  package_name k = TrimPrefix k "node_modules/".
Proof.
  intros Hat. unfold package_name. cbv zeta. rewrite Hat. cbn [andb negb].
  destruct (1 <=? Count _ "/").
  - destruct (SplitN _ "/" 2) as [|p0 [|p1 [|p2 ps]]] eqn:Hparts; try done.
    by apply SplitN_2_join.
  - by rewrite andb_false_r.
Qed.

(** Any other name is cut before its first "/", if it has one. *)
Lemma package_name_unscoped k :
  HasPrefix (TrimPrefix k "node_modules/") "@" = false ->
  package_name k =
    let name := TrimPrefix k "node_modules/" in
    if 0 <=? Index name "/" then slice_to name (Index name "/") else name.
Proof.
  intros Hat. unfold package_name. cbv zeta. rewrite Hat. cbn [andb negb].
  by rewrite andb_true_r.
Qed.

Lemma package_name_segment k seg rest :
  TrimPrefix k "node_modules/" = seg +:+ "/" +:+ rest ->
  HasPrefix seg "@" = false ->
  Index seg "/" = -1 ->
  package_name k = seg.
Proof.
  intros Hk Hat Hseg. change ("/" +:+ rest) with (String "/" rest) in Hk.
  rewrite package_name_unscoped; rewrite Hk.
  - cbv zeta. rewrite (Index_byte_first _ seg rest Hseg).
    pose proof (len_nonneg seg).
    destruct (Z.leb_spec 0 (len seg)); [|lia].
    unfold slice_to, len. rewrite Nat2Z.id. apply take_app.
  - destruct seg as [|c seg]; [done|]. revert Hat. simpl. by destruct (Ascii.eqb c "@").
Qed.

Lemma package_name_flat k :
  Index (TrimPrefix k "node_modules/") "/" = -1 ->
  package_name k = TrimPrefix k "node_modules/".
Proof.
  intros Hi. destruct (HasPrefix (TrimPrefix k "node_modules/") "@") eqn:Hat.
  - by apply package_name_scoped.
  - rewrite package_name_unscoped by done. cbv zeta. by rewrite Hi.
Qed.
End name_facts.

Section extract_facts.

Lemma extract_entry_dep out kv :
  extract_entry out kv = out ++ option_list (dep_of_entry kv).
Proof.
  destruct kv as [k v]. unfold extract_entry, dep_of_entry. simpl.
  destruct v; try by rewrite app_nil_r.
  destruct (decide (k = "")); [by rewrite app_nil_r | done].
Qed.

Lemma fold_extract_entry entries out :
  fold_left extract_entry entries out = out ++ omap dep_of_entry entries.
Proof.
  revert out. induction entries as [|kv entries IH]; intros out; simpl.
  - by rewrite app_nil_r.
  - rewrite IH, extract_entry_dep, <- app_assoc. f_equal.
    by destruct (dep_of_entry kv).
Qed.

Lemma extract_range_omap entries :
  extract_range entries = omap dep_of_entry entries.
Proof. unfold extract_range. by rewrite fold_extract_entry. Qed.

(** The order in which the map is visited only permutes the result. *)
Lemma extract_range_Permutation entries1 entries2 :
  entries1 ≡ₚ entries2 -> extract_range entries1 ≡ₚ extract_range entries2.
Proof. rewrite !extract_range_omap. by intros ->. Qed.

Lemma extract_packages lock packages :
  lock !! "packages" = Some (AMap packages) ->
  extractNpmPackages lock = omap dep_of_entry (map_to_list packages).
Proof. unfold extractNpmPackages. intros ->. apply extract_range_omap. Qed.

(** The entries of the result are those of the records under a key
    other than the root's. *)
Lemma elem_of_extract lock packages d :
  lock !! "packages" = Some (AMap packages) ->
  d ∈ extractNpmPackages lock <->
  exists k entry, packages !! k = Some (AMap entry) /\ k <> ""
                  /\ d = Dep (package_name k) (entry_version entry).
Proof.
  intros Hp. rewrite (extract_packages _ _ Hp), list_elem_of_omap. split.
  - intros ([k v] & Hin%elem_of_map_to_list & Hd). revert Hd.
    unfold dep_of_entry. simpl. destruct v; try done.
    destruct (decide (k = "")); [done|]. intros [= <-]. by exists k, m.
  - intros (k & entry & Hk & Hne & ->). exists (k, AMap entry). split.
    + by apply elem_of_map_to_list.
    + unfold dep_of_entry. simpl. by destruct (decide (k = "")).
Qed.

(** Whatever the order in which the loop visits the map, it gives the
    elements of [extractNpmPackages]. *)
Lemma extract_any_order lock packages entries d :
  lock !! "packages" = Some (AMap packages) ->
  entries ≡ₚ map_to_list packages ->
  d ∈ extract_range entries <-> d ∈ extractNpmPackages lock.
Proof.
  intros Hp Hperm. unfold extractNpmPackages. rewrite Hp.
  by rewrite (extract_range_Permutation _ _ Hperm).
Qed.

Lemma extract_not_packages lock :
  (forall packages, lock !! "packages" <> Some (AMap packages)) ->
  extractNpmPackages lock = [].
Proof.
  unfold extractNpmPackages. intros Hno.
  destruct (lock !! "packages") as [[]|]; try done. by destruct (Hno m).
Qed.

End extract_facts.

(** ** The claims on the extractor *)

(** C1.  The claim: a scoped name keeps exactly its first two segments,
    so that the key "node_modules/@scope/pkg/node_modules/other" gives
    the name "@scope/pkg".  The code does not do it: the scoped branch
    cuts the name in two at the first "/" and joins the two parts again,
    which changes nothing.  On the document [lock_nested_scoped] the
    extractor answers the whole nested path as the name. *)
Theorem C1_nested_scoped_name_not_cut :
  extractNpmPackages lock_nested_scoped
  = [Dep "@scope/pkg/node_modules/other" "2.0.0"]
  /\ package_name "node_modules/@scope/pkg/node_modules/other" <> "@scope/pkg".
Proof. split; [by vm_compute | by vm_compute]. Qed.

(** C2.  A document without a "packages" key, or whose "packages" value
    is not a map, gives the empty list. *)
Theorem C2_no_packages_map (lock : gmap string any) :
  lock !! "packages" = None
  \/ (exists v, lock !! "packages" = Some v /\ forall m, v <> AMap m) ->
  extractNpmPackages lock = [].
Proof.
  intros Hno. apply extract_not_packages. intros packages Hp.
  destruct Hno as [Hno|(v & Hv & Hm)]; [congruence|].
  rewrite Hp in Hv. injection Hv as <-. by destruct (Hm packages).
Qed.

Lemma C2_no_packages_map_witness :
  (({[ "packages" := ASlice [AString "left-pad"] ]} : gmap string any) !! "packages" = None
   \/ (exists v, ({[ "packages" := ASlice [AString "left-pad"] ]} : gmap string any)
                   !! "packages" = Some v /\ forall m, v <> AMap m))
  /\ extractNpmPackages {[ "packages" := ASlice [AString "left-pad"] ]} = [].
Proof.
  assert (({[ "packages" := ASlice [AString "left-pad"] ]} : gmap string any) !! "packages" = None
   \/ (exists v, ({[ "packages" := ASlice [AString "left-pad"] ]} : gmap string any)
                   !! "packages" = Some v /\ forall m, v <> AMap m)) as H.
  { right. exists (ASlice [AString "left-pad"]). split; [reflexivity | discriminate]. }
  split; [exact H | exact (C2_no_packages_map _ H)].
Defined.

(** C3.  A record under the key
    "node_modules/<outer>/node_modules/<inner>", where <outer> is one
    path segment that does not start with '@', gives an entry named
    <outer> that carries the version of that record. *)
Theorem C3_nested_unscoped_flattened
    (lock packages entry : gmap string any) (outer inner : string) :
  lock !! "packages" = Some (AMap packages) ->
  packages !! ("node_modules/" +:+ outer +:+ "/node_modules/" +:+ inner)
    = Some (AMap entry) ->
  strings.HasPrefix outer "@" = false ->
  strings.Index outer "/" = -1 ->
  Dep outer (entry_version entry) ∈ extractNpmPackages lock
  /\ forall ver, entry !! "version" = Some (AString ver) ->
                 Dep outer ver ∈ extractNpmPackages lock.
Proof.
  intros Hp Hk Hat Hseg.
  assert (Dep outer (entry_version entry) ∈ extractNpmPackages lock) as Hin.
  { apply (elem_of_extract _ _ _ Hp).
    exists ("node_modules/" +:+ outer +:+ "/node_modules/" +:+ inner), entry.
    split; [done|]. split; [done|]. f_equal. symmetry.
    apply (package_name_segment _ outer ("node_modules/" +:+ inner)); [|done..].
    apply TrimPrefix_app. }
  split; [done|]. intros ver Hver. unfold entry_version in Hin. by rewrite Hver in Hin.
Qed.

Lemma C3_nested_unscoped_flattened_witness :
  Dep "foo" "2.5.1" ∈ extractNpmPackages lock_nested_unscoped.
Proof.
  refine (proj2 (C3_nested_unscoped_flattened lock_nested_unscoped
            {[ "node_modules/foo" := record "1.0.0";
               "node_modules/foo/node_modules/bar" := record "2.5.1" ]}
            {[ "version" := AString "2.5.1" ]} "foo" "bar" _ _ _ _) "2.5.1" _);
    reflexivity.
Defined.

(** C8.  A record without a "version" field, or whose "version" is not
    a string, still gives an entry, with the empty version. *)
Theorem C8_missing_version_kept
    (lock packages entry : gmap string any) (k : string) :
  lock !! "packages" = Some (AMap packages) ->
  packages !! k = Some (AMap entry) ->
  k <> "" ->
  entry !! "version" = None
  \/ (exists v, entry !! "version" = Some v /\ forall s, v <> AString s) ->
  entry_version entry = ""
  /\ Dep (package_name k) "" ∈ extractNpmPackages lock.
Proof.
  intros Hp Hk Hne Hver.
  assert (entry_version entry = "") as Hempty.
  { unfold entry_version. destruct Hver as [->|(v & -> & Hv)]; [done|].
    destruct v; try done. by destruct (Hv s). }
  split; [done|]. rewrite <- Hempty.
  apply (elem_of_extract _ _ _ Hp). by exists k, entry.
Qed.

Lemma C8_missing_version_kept_witness :
  entry_version {[ "version" := ANumber (S754_finite false 3 0) ]} = ""
  /\ Dep (package_name "node_modules/b") "" ∈ extractNpmPackages lock_no_version.
Proof.
  apply (C8_missing_version_kept lock_no_version
           {[ "node_modules/b" := AMap {[ "version" := ANumber (S754_finite false 3 0) ]} ]}
           {[ "version" := ANumber (S754_finite false 3 0) ]} "node_modules/b").
  - reflexivity.
  - reflexivity.
  - discriminate.
  - right. exists (ANumber (S754_finite false 3 0)). split; [reflexivity | discriminate].
Defined.

(** C9.  The root entry, under the key "", gives nothing: a document
    whose "packages" map holds a root entry has the dependencies of the
    document without it, and every dependency of the result comes from
    a record under a key other than "". *)
Theorem C9_root_entry_skipped (lock packages : gmap string any) (root : any) :
  extractNpmPackages (<["packages" := AMap (<["" := root]> packages)]> lock)
    ≡ₚ extractNpmPackages (<["packages" := AMap (delete "" packages)]> lock)
  /\ forall d, d ∈ extractNpmPackages lock ->
       exists pkgs k entry,
         lock !! "packages" = Some (AMap pkgs) /\ pkgs !! k = Some (AMap entry)
         /\ k <> "" /\ d = Dep (package_name k) (entry_version entry).
Proof.
  split.
  - pose proof (extract_packages (<["packages" := AMap (<["" := root]> packages)]> lock)
                  (<["" := root]> packages) (lookup_insert_eq _ _ _)) as ->.
    pose proof (extract_packages (<["packages" := AMap (delete "" packages)]> lock)
                  (delete "" packages) (lookup_insert_eq _ _ _)) as ->.
    assert (map_to_list (<["" := root]> packages)
              ≡ₚ ("", root) :: map_to_list (delete "" packages)) as Hperm.
    { rewrite <- (insert_delete_eq packages "" root).
      apply map_to_list_insert, lookup_delete_eq. }
    rewrite Hperm. simpl. unfold dep_of_entry at 1. simpl. by destruct root.
  - intros d Hd. destruct (lock !! "packages") as [[]|] eqn:Hp;
      try (unfold extractNpmPackages in Hd; rewrite Hp in Hd; by apply elem_of_nil in Hd).
    destruct (proj1 (elem_of_extract _ _ d Hp) Hd) as (k & entry & ? & ? & ?).
    by exists m, k, entry.
Qed.

(** C10.  A record under a non-empty key that does not start with
    "node_modules/" gives an entry all the same.  Its name is the key,
    cut to its first segment when the key holds a "/" and does not start
    with '@'. *)
Theorem C10_key_without_node_modules
    (lock packages entry : gmap string any) (k : string) :
  lock !! "packages" = Some (AMap packages) ->
  packages !! k = Some (AMap entry) ->
  k <> "" ->
  strings.HasPrefix k "node_modules/" = false ->
  Dep (package_name k) (entry_version entry) ∈ extractNpmPackages lock
  /\ (strings.HasPrefix k "@" = true -> package_name k = k)
  /\ (strings.Index k "/" = -1 -> package_name k = k)
  /\ (forall seg rest,
        strings.HasPrefix k "@" = false -> k = seg +:+ "/" +:+ rest ->
        strings.Index seg "/" = -1 -> package_name k = seg).
Proof.
  intros Hp Hk Hne Hnm.
  pose proof (TrimPrefix_absent _ _ Hnm) as Htrim.
  split; [|split; [|split]].
  - apply (elem_of_extract _ _ _ Hp). by exists k, entry.
  - intros Hat. rewrite package_name_scoped; rewrite Htrim; done.
  - intros Hi. rewrite package_name_flat; rewrite Htrim; done.
  - intros seg rest Hat -> Hseg.
    apply (package_name_segment _ seg rest); [done| |done].
    destruct seg as [|c seg]; [done|]. revert Hat. simpl. by destruct (Ascii.eqb c "@").
Qed.

Lemma C10_key_without_node_modules_witness :
  Dep "packages" "0.3.0" ∈ extractNpmPackages lock_bare_keys.
Proof.
  exact (proj1 (C10_key_without_node_modules lock_bare_keys
           {[ "packages/app/lib" := record "0.3.0" ]}
           {[ "version" := AString "0.3.0" ]} "packages/app/lib"
           eq_refl eq_refl ltac:(discriminate) eq_refl)).
Defined.

(** ** Facts on the scan routine *)

Section summary_facts.
Import strings.

(** The slice before the first instance of a one-byte separator does
    not hold the separator. *)
Lemma Index_byte_before c s :
  0 <= Index s (String c "") ->
  Index (slice_to s (Index s (String c ""))) (String c "") = -1.
Proof.
  unfold slice_to. induction s as [|d s IH]; [done|].
  cbn [Index]. rewrite HasPrefix_byte. destruct (Ascii.eqb d c) eqn:Hd; [done|].
  cbv zeta. destruct (Z.ltb_spec (Index s (String c "")) 0) as [|Hge]; [lia|].
  intros _.
  replace (Z.to_nat (1 + Index s (String c ""))) with (S (Z.to_nat (Index s (String c "")))) by lia.
  cbn [take Index]. rewrite HasPrefix_byte, Hd. cbv zeta. by rewrite (IH Hge).
Qed.

Lemma Split_first_line t : hd "" (Split t LF) = first_line t.
Proof. by destruct (Split_head t LF) as [rest ->]. Qed.

Lemma first_line_spec t :
  (t = first_line t \/ exists rest, t = first_line t +:+ LF +:+ rest)
  /\ Index (first_line t) LF = -1.
Proof.
  unfold first_line. destruct (Z.ltb_spec (Index t LF) 0) as [Hlt|Hge].
  - split; [by left|]. destruct (Index_bounds t LF); lia.
  - split; [|by apply Index_byte_before].
    right. eexists. by apply Index_cut.
Qed.

(** On ASCII text the characters are the bytes. *)
Lemma utf8_chars_ascii s :
  Forall (fun c => (nat_of_ascii c < 128)%nat) (String.list_ascii_of_string s) ->
  utf8_chars s = String.length s.
Proof.
  induction s as [|c s IH]; [done|]. cbn [String.list_ascii_of_string].
  intros [Hc Hs]%Forall_cons. cbn [utf8_chars String.length]. rewrite (IH Hs).
  destruct (Nat.leb_spec 128 (nat_of_ascii c)); [lia|done].
Qed.

Lemma short_summary_unfold summary :
  short_summary summary =
    let s := first_line (TrimSpace summary) in
    if 110 <? len s then slice_to s 110 +:+ ellipsis else s.
Proof. unfold short_summary. by rewrite Split_first_line. Qed.
End summary_facts.

Section scan_facts.
Context (w : World).

Lemma scan_loop_app deps1 deps2 st :
  scan_loop w (deps1 ++ deps2) st = scan_loop w deps2 (scan_loop w deps1 st).
Proof. apply fold_left_app. Qed.

Lemma scan_loop_cons d deps st :
  scan_loop w (d :: deps) st = scan_loop w deps (scan_dep w st d).
Proof. done. Qed.

Lemma scan_dep_skip st d : ¬ queried d -> scan_dep w st d = st.
Proof.
  unfold queried, scan_dep. intros Hq.
  destruct (decide (name d = "")) as [->|]; [done|].
  destruct (decide (version d = "")) as [->|]; [by rewrite orb_true_r|].
  by destruct Hq.
Qed.

Lemma scan_dep_queried st d :
  queried d ->
  scan_dep w st d =
    let q := query_of d in
    match Post w (length (posted st)) q with
    | Err err => emit (sent st q) [QueryFailed (name d) (version d) err]
    | Ok body =>
        match Unmarshal_osvResp w body with
        | Err err => emit (sent st q) [BadResponse (name d) (version d) err]
        | Ok or =>
            let n := Z.of_nat (length (Vulns or)) in
            if 0 <? n then
              let st := emit (sent st q)
                          (Vulnerable (name d) (version d) n
                           :: ((fun v => VulnLine (ID v) (short_summary (Summary v)))
                               <$> Vulns or)) in
              {| printed := printed st; posted := posted st;
                 vulnCount := vulnCount st + n |}
            else sent st q
        end
    end.
Proof.
  intros [Hn Hv]. unfold scan_dep.
  by rewrite (bool_decide_eq_false_2 _ Hn), (bool_decide_eq_false_2 _ Hv).
Qed.

(** Each queried dependency posts one query, whatever the answer. *)
Lemma scan_dep_posted st d :
  queried d -> posted (scan_dep w st d) = posted st ++ [query_of d].
Proof.
  intros Hq. rewrite (scan_dep_queried _ _ Hq). cbv zeta.
  destruct (Post w _ _) as [body|err]; [|done].
  destruct (Unmarshal_osvResp w body) as [or|err]; [|done].
  by destruct (0 <? _).
Qed.

Lemma scan_loop_posted deps st :
  posted (scan_loop w deps st) = posted st ++ (query_of <$> filter queried deps).
Proof.
  revert st. induction deps as [|d deps IH]; intros st.
  - by rewrite app_nil_r.
  - rewrite scan_loop_cons, IH, filter_cons. destruct (decide (queried d)) as [Hq|Hq].
    + rewrite (scan_dep_posted _ _ Hq), <- app_assoc. done.
    + by rewrite (scan_dep_skip _ _ Hq).
Qed.

(** The loop only adds lines after those already printed. *)
Lemma scan_dep_printed st d :
  exists ls, printed (scan_dep w st d) = printed st ++ ls.
Proof.
  destruct (decide (queried d)) as [Hq|Hq].
  - rewrite (scan_dep_queried _ _ Hq). cbv zeta.
    destruct (Post w _ _) as [body|err]; [|by eexists].
    destruct (Unmarshal_osvResp w body) as [or|err]; [|by eexists].
    destruct (0 <? _); [by eexists|]. exists []. by rewrite app_nil_r.
  - rewrite (scan_dep_skip _ _ Hq). exists []. by rewrite app_nil_r.
Qed.

Lemma scan_loop_printed deps st :
  exists ls, printed (scan_loop w deps st) = printed st ++ ls.
Proof.
  revert st. induction deps as [|d deps IH]; intros st.
  - exists []. by rewrite app_nil_r.
  - rewrite scan_loop_cons. destruct (IH (scan_dep w st d)) as [ls ->].
    destruct (scan_dep_printed st d) as [ls' ->]. exists (ls' ++ ls).
    by rewrite app_assoc.
Qed.

Lemma scan_loop_keeps l deps st :
  l ∈ printed st -> l ∈ printed (scan_loop w deps st).
Proof.
  intros Hl. destruct (scan_loop_printed deps st) as [ls ->].
  apply elem_of_app. by left.
Qed.

(** A run that gets past the decoding of the lockfile returns, having
    posted one query for each queried dependency, in order. *)
Lemma scanCmd_Run_decoded arg data lock :
  ReadFile w (Clean w arg) = Ok data ->
  Unmarshal_lock w data = Ok lock ->
  exit (scanCmd_Run w arg) = Returned
  /\ requests (scanCmd_Run w arg) = query_of <$> filter queried (extractNpmPackages lock).
Proof.
  intros Hread Hlock. unfold scanCmd_Run. cbv zeta. rewrite Hread, Hlock.
  destruct (Z.eqb_spec (Z.of_nat (length (extractNpmPackages lock))) 0) as [Hz|Hnz].
  - destruct (extractNpmPackages lock); [done|]. simpl in Hz. lia.
  - simpl. by rewrite scan_loop_posted.
Qed.

Lemma requests_queried arg q :
  q ∈ requests (scanCmd_Run w arg) -> Name (Package q) <> "" /\ Version q <> "".
Proof.
  destruct (ReadFile w (Clean w arg)) as [data|err] eqn:Hread.
  - destruct (Unmarshal_lock w data) as [lock|err] eqn:Hlock.
    + destruct (scanCmd_Run_decoded _ _ _ Hread Hlock) as [_ ->].
      intros (d & -> & Hd%list_elem_of_filter)%list_elem_of_fmap. apply Hd.
    + unfold scanCmd_Run. cbv zeta. rewrite Hread, Hlock. by intros ?%elem_of_nil.
  - unfold scanCmd_Run. cbv zeta. rewrite Hread. by intros ?%elem_of_nil.
Qed.
End scan_facts.

(** ** The claims on the scan routine *)

(** What [short_summary] computes, counted in bytes as the code counts:
    the first line of the trimmed text when it has at most 110 bytes,
    and its first 110 bytes followed by the ellipsis otherwise.  The
    cut falls after a byte, whether or not a character ends there. *)
Lemma short_summary_bytes (summary : string) :
  exists line,
    (strings.TrimSpace summary = line
     \/ exists rest, strings.TrimSpace summary = line +:+ LF +:+ rest)
    /\ strings.Index line LF = -1
    /\ (strings.len line <= 110 -> short_summary summary = line)
    /\ (110 < strings.len line ->
        short_summary summary = strings.slice_to line 110 +:+ ellipsis
        /\ strings.len (strings.slice_to line 110) = 110
        /\ strings.HasPrefix line (strings.slice_to line 110) = true).
Proof.
  exists (first_line (strings.TrimSpace summary)).
  destruct (first_line_spec (strings.TrimSpace summary)) as [Hcut Hno].
  split; [done|]. split; [done|]. rewrite short_summary_unfold. cbv zeta.
  split; intros Hlen.
  - by destruct (Z.ltb_spec 110 (strings.len (first_line (strings.TrimSpace summary)))); [lia|].
  - destruct (Z.ltb_spec 110 (strings.len (first_line (strings.TrimSpace summary)))); [|lia].
    split; [done|]. unfold strings.slice_to, strings.len in *. split.
    + rewrite length_take; lia.
    + rewrite <- (take_drop (Z.to_nat 110) (first_line (strings.TrimSpace summary))) at 1.
      apply HasPrefix_app.
Qed.

Lemma take_ascii n s :
  Forall (fun c => (nat_of_ascii c < 128)%nat) (String.list_ascii_of_string s) ->
  Forall (fun c => (nat_of_ascii c < 128)%nat)
         (String.list_ascii_of_string (strings.take n s)).
Proof.
  revert s. induction n as [|n IH]; intros [|c s]; simpl; try by constructor.
  intros [Hc Hs]%Forall_cons. constructor; [done|]. by apply IH.
Qed.

(** On a first line of ASCII text the code does what the summary is
    meant to be, counted in characters: a line of at most 110
    characters is printed as it is, a longer one is cut to its first
    110 characters, followed by the ellipsis. *)
Lemma short_summary_ascii (summary : string) :
  let line := first_line (strings.TrimSpace summary) in
  Forall (fun c => (nat_of_ascii c < 128)%nat) (String.list_ascii_of_string line) ->
  ((utf8_chars line <= 110)%nat -> short_summary summary = line)
  /\ ((110 < utf8_chars line)%nat ->
      short_summary summary = strings.slice_to line 110 +:+ ellipsis
      /\ utf8_chars (strings.slice_to line 110) = 110%nat).
Proof.
  intros line Hascii. rewrite short_summary_unfold. cbv zeta. fold line.
  pose proof (utf8_chars_ascii line Hascii) as Hchars.
  unfold strings.len, strings.slice_to. rewrite Hchars. split; intros Hlen.
  - by destruct (Z.ltb_spec 110 (Z.of_nat (String.length line))); [lia|].
  - destruct (Z.ltb_spec 110 (Z.of_nat (String.length line))); [|lia].
    split; [done|]. rewrite (utf8_chars_ascii _ (take_ascii _ _ Hascii)).
    rewrite length_take; lia.
Qed.

Example ex_short_summary_accents :
  (utf8_chars summary_accents = 56)%nat
  /\ short_summary summary_accents
     = repeat_string 55 (strings.bytes [195; 169]) +:+ ellipsis.
Proof. split; by vm_compute. Qed.

(** C4.  The claim: a first line of 110 characters or fewer is left
    untouched, and a longer one is cut to 110 characters.  The code
    counts and cuts bytes ([len(s) > 110], [s[:110]]), which is the
    same on ASCII text only.  [summary_accent_last] is one line of 110
    characters, with no white space around it, whose last character
    takes two bytes: the code cuts it after its 110th byte, inside that
    character, and prints 109 letters, the lone byte C3 and the
    ellipsis, which is not UTF-8 text.  The run of [world_accent_last]
    prints that line for the vulnerability. *)
Theorem C4_summary_cut_inside_character :
  strings.TrimSpace summary_accent_last = summary_accent_last
  /\ first_line summary_accent_last = summary_accent_last
  /\ utf8_chars summary_accent_last = 110%nat
  /\ short_summary summary_accent_last
     = repeat_string 109 "x" +:+ strings.bytes [195] +:+ ellipsis
  /\ short_summary summary_accent_last <> summary_accent_last
  /\ output (scanCmd_Run world_accent_last "package-lock.json")
     = [Scanning 1 "package-lock.json";
        Vulnerable "left-pad" "1.3.0" 1;
        VulnLine "GHSA-0002"
          (repeat_string 109 "x" +:+ strings.bytes [195] +:+ ellipsis)].
Proof.
  split; [by vm_compute|]. split; [by vm_compute|]. split; [by vm_compute|].
  split; [by vm_compute|]. split; [|by vm_compute].
  intros Heq. apply (f_equal String.length) in Heq. vm_compute in Heq. discriminate.
Qed.

(** C5.  A dependency with an empty name or an empty version leaves no
    trace: the loop over a list that holds it ends in the state of the
    loop over the list without it (same lines, same queries, same
    count), and no query of a run has an empty name or version. *)
Theorem C5_empty_dep_skipped
    (w : World) (d : dep) (before after : list dep) (st : scan_state) :
  name d = "" \/ version d = "" ->
  scan_dep w st d = st
  /\ scan_loop w (before ++ d :: after) st = scan_loop w (before ++ after) st
  /\ forall arg q, q ∈ requests (scanCmd_Run w arg) ->
                   Name (Package q) <> "" /\ Version q <> "".
Proof.
  intros Hd. assert (¬ queried d) as Hq by (intros [? ?]; by destruct Hd).
  split; [by apply scan_dep_skip|]. split.
  - rewrite !scan_loop_app, scan_loop_cons. by rewrite scan_dep_skip.
  - apply requests_queried.
Qed.

Lemma C5_empty_dep_skipped_witness :
  scan_loop world_gateway ([Dep "a" "1.0.0"] ++ Dep "b" "" :: [Dep "c" "3.0.0"])
    {| printed := []; posted := []; vulnCount := 0 |}
  = scan_loop world_gateway ([Dep "a" "1.0.0"] ++ [Dep "c" "3.0.0"])
      {| printed := []; posted := []; vulnCount := 0 |}.
Proof.
  exact (proj1 (proj2 (C5_empty_dep_skipped world_gateway (Dep "b" "")
                         [Dep "a" "1.0.0"] [Dep "c" "3.0.0"]
                         {| printed := []; posted := []; vulnCount := 0 |}
                         (or_intror eq_refl)))).
Defined.

(** C6.  When the query of a dependency fails in transport, or its
    answer does not decode, the loop prints the failure for that
    dependency and goes on with the dependencies after it.  Whatever
    the answers, one query is posted for each dependency with a name
    and a version, and a run whose lockfile decodes returns after the
    last of them. *)
Theorem C6_query_failure_continues
    (w : World) (d : dep) (before after : list dep) (st : scan_state) :
  name d <> "" -> version d <> "" ->
  let st1 := scan_loop w before st in
  let answer := Post w (length (posted st1)) (query_of d) in
  (forall err, answer = Err err ->
     scan_loop w (before ++ d :: after) st
     = scan_loop w after
         (emit (sent st1 (query_of d)) [QueryFailed (name d) (version d) err])
     /\ QueryFailed (name d) (version d) err
        ∈ printed (scan_loop w (before ++ d :: after) st))
  /\ (forall body err, answer = Ok body -> Unmarshal_osvResp w body = Err err ->
        scan_loop w (before ++ d :: after) st
        = scan_loop w after
            (emit (sent st1 (query_of d)) [BadResponse (name d) (version d) err])
        /\ BadResponse (name d) (version d) err
           ∈ printed (scan_loop w (before ++ d :: after) st))
  /\ posted (scan_loop w (before ++ d :: after) st)
     = posted st ++ (query_of <$> filter queried (before ++ d :: after))
  /\ (forall arg data lock,
        ReadFile w (Clean w arg) = Ok data -> Unmarshal_lock w data = Ok lock ->
        exit (scanCmd_Run w arg) = Returned
        /\ requests (scanCmd_Run w arg)
           = query_of <$> filter queried (extractNpmPackages lock)).
Proof.
  intros Hn Hv st1 answer. assert (queried d) as Hq by done.
  assert (scan_loop w (before ++ d :: after) st
          = scan_loop w after (scan_dep w st1 d)) as Hstep.
  { by rewrite scan_loop_app, scan_loop_cons. }
  split; [|split; [|split]].
  - intros err Herr.
    assert (scan_dep w st1 d
            = emit (sent st1 (query_of d)) [QueryFailed (name d) (version d) err]) as Hd.
    { rewrite (scan_dep_queried _ _ _ Hq). cbv zeta. fold answer. by rewrite Herr. }
    rewrite Hstep, Hd. split; [done|].
    apply scan_loop_keeps, elem_of_app. right. apply list_elem_of_singleton. done.
  - intros body err Hbody Herr.
    assert (scan_dep w st1 d
            = emit (sent st1 (query_of d)) [BadResponse (name d) (version d) err]) as Hd.
    { rewrite (scan_dep_queried _ _ _ Hq). cbv zeta. fold answer. by rewrite Hbody, Herr. }
    rewrite Hstep, Hd. split; [done|].
    apply scan_loop_keeps, elem_of_app. right. apply list_elem_of_singleton. done.
  - apply scan_loop_posted.
  - apply scanCmd_Run_decoded.
Qed.

Lemma C6_query_failure_continues_witness :
  scan_loop world_gateway ([] ++ Dep "c" "3.0.0" :: [Dep "a" "1.0.0"; Dep "d" "4.0.0"])
    {| printed := []; posted := []; vulnCount := 0 |}
  = scan_loop world_gateway [Dep "a" "1.0.0"; Dep "d" "4.0.0"]
      (emit (sent {| printed := []; posted := []; vulnCount := 0 |}
                  (query_of (Dep "c" "3.0.0")))
            [QueryFailed "c" "3.0.0" "context deadline exceeded"])
  /\ QueryFailed "c" "3.0.0" "context deadline exceeded"
     ∈ printed (scan_loop world_gateway
                  ([] ++ Dep "c" "3.0.0" :: [Dep "a" "1.0.0"; Dep "d" "4.0.0"])
                  {| printed := []; posted := []; vulnCount := 0 |}).
Proof.
  refine (proj1 (C6_query_failure_continues world_gateway (Dep "c" "3.0.0") []
                   [Dep "a" "1.0.0"; Dep "d" "4.0.0"]
                   {| printed := []; posted := []; vulnCount := 0 |} _ _)
                "context deadline exceeded" eq_refl); discriminate.
Defined.

(** In [world_huge_number] the lockfile is read and holds a valid JSON
    object; the decoder rejects its number and the process exits with
    code 1. *)
Example ex_run_huge_number :
  scanCmd_Run world_huge_number "package-lock.json"
  = {| output := [InvalidJSON
                    "json: cannot unmarshal number 1e999 into Go value of type float64"];
       requests := []; exit := Exit 1 |}.
Proof. reflexivity. Qed.

(** C7, as it is stated, fails: the claim ties exit code 1 to a file
    that cannot be read or a text that is not valid JSON.  A text that
    is not valid JSON is one of those the decoder rejects, so the claim
    gives code 0 whenever the file is read and the decoder accepts its
    text.  In [world_array] the lockfile is read and holds the valid
    JSON text of an empty array, which the decoder accepts; storing an
    array into the map fails and the process exits with code 1. *)
Lemma C7_counterexample :
  ¬ (forall (w : World) (arg : string),
       exit_code (scanCmd_Run w arg) = 1 <->
       (exists err, ReadFile w (Clean w arg) = Err err)
       \/ (exists data err, ReadFile w (Clean w arg) = Ok data
                            /\ json_decode w data = Err err)).
Proof.
  intros Hclaim.
  destruct (proj1 (Hclaim world_array "package-lock.json") eq_refl)
    as [[err Hread]|(data & err & Hread & Hjson)].
  - discriminate Hread.
  - injection Hread as <-. discriminate Hjson.
Qed.

(** C7, amended.  The process exits with code 1 exactly when the
    lockfile cannot be read or [json.Unmarshal] returns an error on its
    contents: the decoder rejects the text (it is not valid JSON, or it
    holds a number outside the range of [float64]), or the value at top
    level is neither an object nor null.  In every other case it exits
    with code 0, whatever the answers to the queries and however many
    dependencies there are. *)
Theorem C7_exit_code (w : World) (arg : string) :
  (exit_code (scanCmd_Run w arg) = 1 <->
   (exists err, ReadFile w (Clean w arg) = Err err)
   \/ (exists data, ReadFile w (Clean w arg) = Ok data
         /\ ((exists err, json_decode w data = Err err)
             \/ (exists v, json_decode w data = Ok v
                           /\ v <> ANil /\ forall m, v <> AMap m))))
  /\ (exit_code (scanCmd_Run w arg) = 1 \/ exit_code (scanCmd_Run w arg) = 0)
  /\ (exit_code (scanCmd_Run w arg) = 1 <->
      (exists err, ReadFile w (Clean w arg) = Err err)
      \/ (exists data err, ReadFile w (Clean w arg) = Ok data
                           /\ Unmarshal_lock w data = Err err)).
Proof.
  apply (proj1 (Logic.and_assoc _ _ _)). split; [|
    destruct (ReadFile w (Clean w arg)) as [data|err] eqn:Hread;
      [destruct (Unmarshal_lock w data) as [lock|err] eqn:Hlock|]].
  2:{ destruct (scanCmd_Run_decoded _ _ _ _ Hread Hlock) as [Hexit _].
      unfold exit_code. rewrite Hexit. split; [done|].
      intros [[err [=]]|(data' & err & [= <-] & Hbad)]. congruence. }
  2:{ split; [intros _; right; by exists data, err|]. intros _.
      unfold exit_code, scanCmd_Run. cbv zeta. by rewrite Hread, Hlock. }
  2:{ split; [intros _; left; by exists err|]. intros _.
      unfold exit_code, scanCmd_Run. cbv zeta. by rewrite Hread. }
  destruct (ReadFile w (Clean w arg)) as [data|err] eqn:Hread.
  - destruct (Unmarshal_lock w data) as [lock|err] eqn:Hlock.
    + destruct (scanCmd_Run_decoded _ _ _ _ Hread Hlock) as [Hexit _].
      unfold exit_code. rewrite Hexit. split; [|by right]. split; [done|].
      intros [[err [=]]|(data' & [= <-] & Hbad)]. revert Hlock. unfold Unmarshal_lock.
      destruct Hbad as [[err ->]|(v & -> & Hnil & Hmap)]; [done|].
      destruct v; try done. by destruct (Hmap m).
    + assert (exit_code (scanCmd_Run w arg) = 1) as Hexit.
      { unfold exit_code, scanCmd_Run. cbv zeta. by rewrite Hread, Hlock. }
      split; [|by left]. split; [|done]. intros _. right. exists data. split; [done|].
      revert Hlock. unfold Unmarshal_lock.
      destruct (json_decode w data) as [v|err']; [|left; by eexists].
      intros Hv. right. exists v. split; [done|]. by destruct v.
  - assert (exit_code (scanCmd_Run w arg) = 1) as Hexit.
    { unfold exit_code, scanCmd_Run. cbv zeta. by rewrite Hread. }
    split; [|by left]. split; [|done]. intros _. left. by exists err.
Qed.

(** * Further properties *)

(** ** More facts on the string functions *)

Section byte_facts.
Import strings.

(** A one-byte separator is absent from a string when [Index] answers
    [-1], and only then. *)
Lemma Index_byte_none c s :
  Index s (String c "") = -1 <-> c ∉ String.list_ascii_of_string s.
Proof.
  induction s as [|d s IH]; cbn [Index String.list_ascii_of_string].
  - split; [intros _; apply not_elem_of_nil | done].
  - rewrite HasPrefix_byte, not_elem_of_cons. cbv zeta.
    destruct (Ascii.eqb_spec d c) as [->|Hd].
    + split; [done | by intros [? _]].
    + destruct (Z.ltb_spec (Index s (String c "")) 0) as [Hlt|Hge].
      * split; [|done]. intros _. split; [done|]. apply IH.
        destruct (Index_bounds s (String c "")); lia.
      * split; [lia|]. intros [_ Hs]. apply IH in Hs. lia.
Qed.

Lemma list_ascii_app s t :
  String.list_ascii_of_string (s +:+ t)
  = String.list_ascii_of_string s ++ String.list_ascii_of_string t.
Proof. induction s as [|c s IH]; [done|]. simpl. by rewrite IH. Qed.

Lemma Index_byte_none_app c s t :
  Index (s +:+ t) (String c "") = -1 <->
  Index s (String c "") = -1 /\ Index t (String c "") = -1.
Proof. rewrite !Index_byte_none, list_ascii_app, not_elem_of_app. done. Qed.

Lemma Index_byte_none_take c n s :
  Index s (String c "") = -1 -> Index (take n s) (String c "") = -1.
Proof.
  intros Hs. rewrite <- (take_drop n s) in Hs.
  by apply Index_byte_none_app in Hs as [? _].
Qed.

Lemma Index_none_or_found s substr : Index s substr = -1 \/ 0 <= Index s substr.
Proof. destruct (Index_bounds s substr); lia. Qed.

(** A string that starts with [prefix] holds every byte of [prefix]. *)
Lemma HasPrefix_byte_found c s prefix :
  HasPrefix s prefix = true ->
  0 <= Index prefix (String c "") -> 0 <= Index s (String c "").
Proof.
  intros Hp%HasPrefix_inv Hc.
  destruct (Index_none_or_found s (String c "")) as [Hs|]; [|done].
  rewrite Hp in Hs. apply Index_byte_none_app in Hs as [Hs _]. lia.
Qed.

Lemma Index_byte_zero c s :
  Index s (String c "") = 0 <-> HasPrefix s (String c "") = true.
Proof.
  destruct s as [|d s]; cbn [Index]; [done|]. rewrite HasPrefix_byte.
  destruct (Ascii.eqb d c); [done|]. cbv zeta.
  destruct (Z.ltb_spec (Index s (String c "")) 0); split; try done; lia.
Qed.

Lemma take_empty n s : take n s = "" <-> n = 0%nat \/ s = "".
Proof.
  destruct n, s; simpl; split; try done; auto.
  by intros [|].
Qed.

End byte_facts.

(** ** More facts on the extractor *)

Section more_name_facts.
Import strings.

Lemma package_name_no_slash k :
  HasPrefix (package_name k) "@" = true \/ Index (package_name k) "/" = -1.
Proof.
  destruct (HasPrefix (TrimPrefix k "node_modules/") "@") eqn:Hat.
  - left. by rewrite (package_name_scoped _ Hat).
  - right. rewrite (package_name_unscoped _ Hat). cbv zeta.
    destruct (Z.leb_spec 0 (Index (TrimPrefix k "node_modules/") "/")) as [Hge|Hlt].
    + by apply Index_byte_before.
    + destruct (Index_none_or_found (TrimPrefix k "node_modules/") "/"); [done|lia].
Qed.

Lemma TrimPrefix_no_slash s :
  Index s "/" = -1 -> TrimPrefix s "node_modules/" = s.
Proof.
  intros Hs. apply TrimPrefix_absent.
  destruct (HasPrefix s "node_modules/") eqn:Hp; [|done].
  pose proof (HasPrefix_byte_found "/" _ _ Hp) as Hfound.
  assert (0 <= Index "node_modules/" "/") by (by vm_compute). lia.
Qed.

Lemma TrimPrefix_scoped s :
  HasPrefix s "@" = true -> TrimPrefix s "node_modules/" = s.
Proof.
  intros Hs. apply TrimPrefix_absent. destruct s as [|c s]; [done|].
  revert Hs. simpl. destruct (Ascii.eqb_spec c "@") as [->|]; [done|].
  by rewrite andb_false_l.
Qed.
End more_name_facts.

Section count_facts.

Lemma dep_of_entry_yields kv : is_Some (dep_of_entry kv) <-> yields_dep kv.
Proof.
  destruct kv as [k v]. unfold dep_of_entry, yields_dep. simpl.
  destruct v; simpl; try destruct (decide (k = ""));
    (split; [intros [? ?] | intros [? ?]]); try done; by eexists.
Qed.

Lemma size_filter_to_list (P : string * any -> Prop) `{!forall kv, Decision (P kv)}
    (m : gmap string any) :
  length (filter P (map_to_list m)) = size (filter P m).
Proof.
  induction m as [|k v m Hk IH] using map_ind.
  - by rewrite map_to_list_empty, map_filter_empty, map_size_empty.
  - rewrite map_to_list_insert, filter_cons by done.
    destruct (decide (P (k, v))) as [Hy|Hn].
    + rewrite map_filter_insert_True by done.
      rewrite map_size_insert_None by (apply map_lookup_filter_None; by left).
      simpl. by rewrite IH.
    + rewrite map_filter_insert_False, delete_id by done. done.
Qed.

Lemma length_omap_dep entries :
  length (omap dep_of_entry entries) = length (filter yields_dep entries).
Proof.
  induction entries as [|kv entries IH]; [done|].
  rewrite filter_cons. cbn [omap list_omap].
  destruct (decide (yields_dep kv)) as [Hy|Hn].
  - apply dep_of_entry_yields in Hy as [d ->]. simpl. by rewrite IH.
  - destruct (dep_of_entry kv) eqn:Hd; [|done].
    destruct Hn. apply dep_of_entry_yields. by eexists.
Qed.

End count_facts.

(** ** Further properties of the extractor *)

(** X1.  The extractor neither filters nor merges: its result has one
    entry for each record of the "packages" map under a key other than
    "", and so never more entries than the map. *)
Theorem X1_extract_length (lock packages : gmap string any) :
  lock !! "packages" = Some (AMap packages) ->
  length (extractNpmPackages lock) = size (filter yields_dep packages)
  /\ (length (extractNpmPackages lock) <= size packages)%nat.
Proof.
  intros Hp. rewrite (extract_packages _ _ Hp), length_omap_dep.
  assert (length (filter yields_dep (map_to_list packages))
          = size (filter yields_dep packages)) as ->.
  { apply size_filter_to_list. }
  split; [done|]. apply map_size_filter.
Qed.

Lemma X1_extract_length_witness :
  length (extractNpmPackages lock_mixed)
  = size (filter yields_dep
            ({[ "" := record "0.1.0";
                "node_modules/a" := record "1.0.0";
                "node_modules/b" := AString "1.0.0";
                "node_modules/@s/p" := record "2.0.0" ]} : gmap string any)).
Proof. exact (proj1 (X1_extract_length lock_mixed _ eq_refl)). Defined.

(** X2.  A value of the "packages" map that is not a record (a string,
    a number, null, an array) is passed over: the document has the
    dependencies of the document without that key. *)
Theorem X2_non_record_skipped (lock packages : gmap string any) (k : string) (v : any) :
  (forall m, v <> AMap m) ->
  extractNpmPackages (<["packages" := AMap (<[k := v]> packages)]> lock)
    ≡ₚ extractNpmPackages (<["packages" := AMap (delete k packages)]> lock).
Proof.
  intros Hv.
  pose proof (extract_packages (<["packages" := AMap (<[k := v]> packages)]> lock)
                (<[k := v]> packages) (lookup_insert_eq _ _ _)) as ->.
  pose proof (extract_packages (<["packages" := AMap (delete k packages)]> lock)
                (delete k packages) (lookup_insert_eq _ _ _)) as ->.
  assert (map_to_list (<[k := v]> packages)
            ≡ₚ (k, v) :: map_to_list (delete k packages)) as Hperm.
  { rewrite <- (insert_delete_eq packages k v).
    apply map_to_list_insert, lookup_delete_eq. }
  rewrite Hperm. simpl. unfold dep_of_entry at 1. simpl.
  destruct v; try done. by destruct (Hv m).
Qed.

Lemma X2_non_record_skipped_witness :
  extractNpmPackages
    (<["packages" := AMap (<["node_modules/b" := AString "1.0.0"]>
                             {[ "node_modules/a" := record "1.0.0" ]})]> ∅)
    ≡ₚ extractNpmPackages
         (<["packages" := AMap (delete "node_modules/b"
                                  {[ "node_modules/a" := record "1.0.0" ]})]> ∅).
Proof.
  apply (X2_non_record_skipped ∅ {[ "node_modules/a" := record "1.0.0" ]}
           "node_modules/b" (AString "1.0.0")).
  discriminate.
Defined.

(** X3.  The name of an extracted dependency holds no "/" unless it
    starts with '@': a path that is not scoped is always cut to one
    segment. *)
Theorem X3_unscoped_name_one_segment (lock : gmap string any) (d : dep) :
  d ∈ extractNpmPackages lock ->
  strings.HasPrefix (name d) "@" = true \/ strings.Index (name d) "/" = -1.
Proof.
  intros Hd. destruct (lock !! "packages") as [[]|] eqn:Hp;
    try (unfold extractNpmPackages in Hd; rewrite Hp in Hd; by apply elem_of_nil in Hd).
  destruct (proj1 (elem_of_extract _ _ d Hp) Hd) as (k & entry & _ & _ & ->).
  apply package_name_no_slash.
Qed.

Lemma X3_unscoped_name_one_segment_witness :
  strings.HasPrefix (name (Dep "foo" "2.5.1")) "@" = true
  \/ strings.Index (name (Dep "foo" "2.5.1")) "/" = -1.
Proof.
  apply (X3_unscoped_name_one_segment lock_nested_unscoped).
  apply (elem_of_extract lock_nested_unscoped _ _ eq_refl).
  exists "node_modules/foo/node_modules/bar", {[ "version" := AString "2.5.1" ]}.
  split; [reflexivity|]. split; [discriminate|reflexivity].
Defined.

(** X4.  Key and name round trip: a record stored under "node_modules/"
    followed by a package name, either one segment or "@scope/pkg",
    comes out under that very name. *)
Theorem X4_canonical_key_round_trip
    (lock packages entry : gmap string any) (n : string) :
  lock !! "packages" = Some (AMap packages) ->
  packages !! ("node_modules/" +:+ n) = Some (AMap entry) ->
  strings.Index n "/" = -1
  \/ (exists scope pkg, n = "@" +:+ scope +:+ "/" +:+ pkg
                        /\ strings.Index scope "/" = -1
                        /\ strings.Index pkg "/" = -1) ->
  package_name ("node_modules/" +:+ n) = n
  /\ Dep n (entry_version entry) ∈ extractNpmPackages lock.
Proof.
  intros Hp Hk Hn.
  assert (package_name ("node_modules/" +:+ n) = n) as Hname.
  { destruct Hn as [Hflat|(scope & pkg & -> & _ & _)].
    - rewrite package_name_flat; rewrite TrimPrefix_app; done.
    - rewrite package_name_scoped; rewrite TrimPrefix_app; done. }
  split; [done|]. apply (elem_of_extract _ _ _ Hp).
  exists ("node_modules/" +:+ n), entry. by rewrite Hname.
Qed.

Lemma X4_canonical_key_round_trip_witness :
  package_name ("node_modules/" +:+ "@s/p") = "@s/p"
  /\ Dep "@s/p" (entry_version {[ "version" := AString "2.0.0" ]})
     ∈ extractNpmPackages lock_mixed.
Proof.
  apply (X4_canonical_key_round_trip lock_mixed
           {[ "" := record "0.1.0";
              "node_modules/a" := record "1.0.0";
              "node_modules/b" := AString "1.0.0";
              "node_modules/@s/p" := record "2.0.0" ]}
           {[ "version" := AString "2.0.0" ]} "@s/p").
  - reflexivity.
  - reflexivity.
  - right. exists "s", "p". split; [reflexivity|]. split; reflexivity.
Defined.

(** X5.  The extracted name is empty exactly when nothing is left of
    the key after the "node_modules/" prefix, or what is left starts
    with "/". *)
Theorem X5_empty_name (k : string) :
  package_name k = "" <->
  strings.TrimPrefix k "node_modules/" = ""
  \/ strings.HasPrefix (strings.TrimPrefix k "node_modules/") "/" = true.
Proof.
  destruct (strings.HasPrefix (strings.TrimPrefix k "node_modules/") "@") eqn:Hat.
  - rewrite (package_name_scoped _ Hat).
    destruct (strings.TrimPrefix k "node_modules/") as [|c t]; [done|].
    split; [done|]. intros [|Hs]; [done|]. revert Hat Hs. simpl.
    destruct (Ascii.eqb_spec c "@") as [->|]; [done|]. by rewrite andb_false_l.
  - rewrite (package_name_unscoped _ Hat). cbv zeta.
    rewrite <- Index_byte_zero.
    destruct (Z.leb_spec 0 (strings.Index (strings.TrimPrefix k "node_modules/") "/"))
      as [Hge|Hlt].
    + unfold strings.slice_to. rewrite take_empty. split.
      * intros [Hz|He]; [right; lia | by left].
      * intros [He|Hz]; [by right | left; lia].
    + split; [by left|]. intros [|Hz]; [done|lia].
Qed.

(** X6.  Extraction of the name is idempotent: a name that came out of
    a key, used as a key, gives itself. *)
Theorem X6_package_name_idempotent (k : string) :
  package_name (package_name k) = package_name k.
Proof.
  destruct (package_name_no_slash k) as [Hat|Hflat].
  - rewrite package_name_scoped; rewrite (TrimPrefix_scoped _ Hat); done.
  - rewrite package_name_flat; rewrite (TrimPrefix_no_slash _ Hflat); done.
Qed.

(** ** More facts on the scan routine *)

Section more_scan_facts.
Context (w : World).

(** The initial state of the loop in [scanCmd_Run]. *)
Lemma scanCmd_Run_scan arg data lock :
  ReadFile w (Clean w arg) = Ok data ->
  Unmarshal_lock w data = Ok lock ->
  extractNpmPackages lock <> [] ->
  let st := scan_loop w (extractNpmPackages lock)
              {| printed := [Scanning (Z.of_nat (length (extractNpmPackages lock)))
                               (Clean w arg)];
                 posted := []; vulnCount := 0 |} in
  scanCmd_Run w arg
  = {| output := printed st
                 ++ (if vulnCount st =? 0 then [NoKnownVulnerabilities] else []);
       requests := posted st; exit := Returned |}.
Proof.
  intros Hread Hlock Hne. unfold scanCmd_Run. cbv zeta. rewrite Hread, Hlock.
  destruct (Z.eqb_spec (Z.of_nat (length (extractNpmPackages lock))) 0) as [Hz|]; [|done].
  destruct (extractNpmPackages lock); [done|]. simpl in Hz. lia.
Qed.

(** When every request fails, the loop prints one failure line for each
    queried dependency and leaves [vulnCount] alone. *)
Lemma scan_loop_all_fail (perr : nat -> osvQuery -> error) deps st :
  (forall n q, Post w n q = Err (perr n q)) ->
  printed (scan_loop w deps st)
  = printed st
    ++ imap (fun i d => QueryFailed (name d) (version d)
                          (perr (length (posted st) + i)%nat (query_of d)))
            (filter queried deps)
  /\ vulnCount (scan_loop w deps st) = vulnCount st.
Proof.
  intros Hfail. revert st. induction deps as [|d deps IH]; intros st.
  - simpl. by rewrite app_nil_r.
  - rewrite scan_loop_cons, filter_cons. destruct (decide (queried d)) as [Hq|Hq].
    + destruct (IH (scan_dep w st d)) as [-> ->].
      rewrite (scan_dep_posted _ _ _ Hq), (scan_dep_queried _ _ _ Hq). cbv zeta.
      rewrite Hfail. simpl. rewrite <- app_assoc. split; [|done]. f_equal. simpl.
      rewrite Nat.add_0_r. f_equal. apply imap_ext. intros i d' _. simpl.
      rewrite List.length_app. simpl. do 2 f_equal. lia.
    + rewrite (scan_dep_skip _ _ _ Hq). apply IH.
Qed.

(** When every answer decodes to an empty list of vulnerabilities, the
    loop prints nothing. *)
Lemma scan_loop_all_clean deps st :
  (forall n q, exists body or, Post w n q = Ok body
       /\ Unmarshal_osvResp w body = Ok or /\ Vulns or = []) ->
  printed (scan_loop w deps st) = printed st
  /\ vulnCount (scan_loop w deps st) = vulnCount st.
Proof.
  intros Hclean. revert st. induction deps as [|d deps IH]; intros st; [done|].
  rewrite scan_loop_cons. destruct (IH (scan_dep w st d)) as [-> ->].
  destruct (decide (queried d)) as [Hq|Hq].
  - rewrite (scan_dep_queried _ _ _ Hq). cbv zeta.
    destruct (Hclean (length (posted st)) (query_of d)) as (body & or & -> & -> & ->).
    done.
  - by rewrite (scan_dep_skip _ _ _ Hq).
Qed.

Lemma count_inv_emit st q ls :
  count_inv st ->
  (forall n v c, Vulnerable n v c ∉ ls) -> NoKnownVulnerabilities ∉ ls ->
  count_inv (emit (sent st q) ls).
Proof.
  intros (Hpos & Hzero & Hno) Hls Hnols. unfold count_inv. simpl.
  split; [done|]. split.
  - rewrite Hzero. split.
    + intros H n v c [?|?]%elem_of_app; [by eapply H | by eapply Hls].
    + intros H n v c Hin. eapply H, elem_of_app. by left.
  - by intros [?|?]%elem_of_app.
Qed.

Lemma count_inv_scan_dep st d : count_inv st -> count_inv (scan_dep w st d).
Proof.
  intros Hinv. destruct (decide (queried d)) as [Hq|Hq].
  - rewrite (scan_dep_queried _ _ _ Hq). cbv zeta.
    destruct (Post w _ _) as [body|err].
    + destruct (Unmarshal_osvResp w body) as [or|err].
      * destruct (Z.ltb_spec 0 (Z.of_nat (length (Vulns or)))) as [Hn|Hn].
        -- destruct Hinv as (Hpos & Hzero & Hno). unfold count_inv. simpl.
           split; [lia|]. split.
           ++ split; [lia|]. intros H. exfalso.
              eapply H, elem_of_app. right. apply list_elem_of_here.
           ++ intros [?|Hin]%elem_of_app; [done|].
              apply elem_of_cons in Hin as [?|Hin]; [done|].
              by apply list_elem_of_fmap in Hin as (? & ? & _).
        -- destruct Hinv as (Hpos & Hzero & Hno). by unfold count_inv.
      * apply count_inv_emit; [done| |]; intros; by rewrite list_elem_of_singleton.
    + apply count_inv_emit; [done| |]; intros; by rewrite list_elem_of_singleton.
  - by rewrite (scan_dep_skip _ _ _ Hq).
Qed.

Lemma count_inv_scan_loop deps st : count_inv st -> count_inv (scan_loop w deps st).
Proof.
  revert st. induction deps as [|d deps IH]; intros st Hinv; [done|].
  rewrite scan_loop_cons. by apply IH, count_inv_scan_dep.
Qed.

End more_scan_facts.

(** ** Further properties of the scan routine *)

(** X7.  When every request fails in transport, the run prints the
    header, one failure line for each dependency with a name and a
    version, in order, each with the error of its own request, and then
    the closing line of a clean scan: failed queries count as no
    vulnerability. *)
Theorem X7_all_requests_fail
    (w : World) (perr : nat -> osvQuery -> error) (arg data : string)
    (lock : gmap string any) :
  ReadFile w (Clean w arg) = Ok data ->
  Unmarshal_lock w data = Ok lock ->
  extractNpmPackages lock <> [] ->
  (forall n q, Post w n q = Err (perr n q)) ->
  output (scanCmd_Run w arg)
  = Scanning (Z.of_nat (length (extractNpmPackages lock))) (Clean w arg)
    :: imap (fun i d => QueryFailed (name d) (version d) (perr i (query_of d)))
            (filter queried (extractNpmPackages lock))
    ++ [NoKnownVulnerabilities].
Proof.
  intros Hread Hlock Hne Hfail.
  rewrite (scanCmd_Run_scan _ _ _ _ Hread Hlock Hne). cbv zeta. simpl.
  destruct (scan_loop_all_fail w perr (extractNpmPackages lock)
              {| printed := [Scanning (Z.of_nat (length (extractNpmPackages lock)))
                               (Clean w arg)];
                 posted := []; vulnCount := 0 |} Hfail) as [-> ->].
  done.
Qed.

Lemma X7_all_requests_fail_witness :
  output (scanCmd_Run world_offline "package-lock.json")
  = Scanning (Z.of_nat (length (extractNpmPackages lock_left_pad))) "package-lock.json"
    :: imap (fun i d => QueryFailed (name d) (version d) "dial tcp: no route to host")
            (filter queried (extractNpmPackages lock_left_pad))
    ++ [NoKnownVulnerabilities].
Proof.
  apply (X7_all_requests_fail world_offline (fun _ _ => "dial tcp: no route to host")
           "package-lock.json" "{...}" lock_left_pad).
  - reflexivity.
  - reflexivity.
  - by vm_compute.
  - reflexivity.
Defined.

(** X8.  When every answer decodes to an empty list of vulnerabilities,
    the run prints the header and the closing line of a clean scan, and
    nothing between them. *)
Theorem X8_no_vulnerabilities
    (w : World) (arg data : string) (lock : gmap string any) :
  ReadFile w (Clean w arg) = Ok data ->
  Unmarshal_lock w data = Ok lock ->
  extractNpmPackages lock <> [] ->
  (forall n q, exists body or, Post w n q = Ok body
       /\ Unmarshal_osvResp w body = Ok or /\ Vulns or = []) ->
  output (scanCmd_Run w arg)
  = [Scanning (Z.of_nat (length (extractNpmPackages lock))) (Clean w arg);
     NoKnownVulnerabilities].
Proof.
  intros Hread Hlock Hne Hclean.
  rewrite (scanCmd_Run_scan _ _ _ _ Hread Hlock Hne). cbv zeta. simpl.
  destruct (scan_loop_all_clean w (extractNpmPackages lock)
              {| printed := [Scanning (Z.of_nat (length (extractNpmPackages lock)))
                               (Clean w arg)];
                 posted := []; vulnCount := 0 |} Hclean) as [-> ->].
  done.
Qed.

Lemma X8_no_vulnerabilities_witness :
  output (scanCmd_Run world_clean "package-lock.json")
  = [Scanning (Z.of_nat (length (extractNpmPackages lock_three))) "package-lock.json";
     NoKnownVulnerabilities].
Proof.
  apply (X8_no_vulnerabilities world_clean "package-lock.json" "{...}" lock_three).
  - reflexivity.
  - reflexivity.
  - by vm_compute.
  - intros n q. exists "{}", {| Vulns := [] |}. split; [reflexivity|]. split; reflexivity.
Defined.

(** X9.  In a run that scans, the closing line of a clean scan is
    printed exactly when no header of a vulnerable package has been
    printed. *)
Theorem X9_clean_line_iff_no_header
    (w : World) (arg data : string) (lock : gmap string any) :
  ReadFile w (Clean w arg) = Ok data ->
  Unmarshal_lock w data = Ok lock ->
  extractNpmPackages lock <> [] ->
  NoKnownVulnerabilities ∈ output (scanCmd_Run w arg)
  <-> (forall n v c, Vulnerable n v c ∉ output (scanCmd_Run w arg)).
Proof.
  intros Hread Hlock Hne.
  rewrite (scanCmd_Run_scan _ _ _ _ Hread Hlock Hne). cbv zeta. simpl.
  set (st := scan_loop w _ _).
  assert (count_inv st) as (Hpos & Hzero & Hno).
  { apply count_inv_scan_loop. unfold count_inv. simpl. split; [done|]. split.
    - split; [|done]. intros _ n v c Hin. by apply list_elem_of_singleton in Hin.
    - intros Hin. by apply list_elem_of_singleton in Hin. }
  destruct (Z.eqb_spec (vulnCount st) 0) as [Hz|Hnz].
  - split.
    + intros _ n v c [Hin|Hin]%elem_of_app.
      * by apply (proj1 Hzero Hz n v c).
      * by apply list_elem_of_singleton in Hin.
    + intros _. apply elem_of_app. right. by apply list_elem_of_singleton.
  - rewrite app_nil_r. split; [done|]. intros H. by destruct Hnz; apply Hzero.
Qed.

Lemma X9_clean_line_iff_no_header_witness :
  NoKnownVulnerabilities ∈ output (scanCmd_Run world_gateway "package-lock.json")
  <-> (forall n v c,
         Vulnerable n v c ∉ output (scanCmd_Run world_gateway "package-lock.json")).
Proof.
  apply (X9_clean_line_iff_no_header world_gateway "package-lock.json" "{...}" lock_three).
  - reflexivity.
  - reflexivity.
  - by vm_compute.
Defined.

(** X10.  A lockfile that decodes to null, or to an object in which no
    record of a "packages" map lies under a key other than "", gives the
    warning alone: no request is made and the run returns. *)
Theorem X10_nothing_to_scan (w : World) (arg data : string) (v : any) :
  ReadFile w (Clean w arg) = Ok data ->
  json_decode w data = Ok v ->
  v = ANil
  \/ (exists lock, v = AMap lock
        /\ forall packages k entry,
             lock !! "packages" = Some (AMap packages) ->
             packages !! k = Some (AMap entry) -> k = "") ->
  scanCmd_Run w arg
  = {| output := [NoDependenciesFound]; requests := []; exit := Returned |}.
Proof.
  intros Hread Hjson Hv.
  assert (exists lock, Unmarshal_lock w data = Ok lock
                       /\ extractNpmPackages lock = []) as (lock & Hlock & Hnil).
  { unfold Unmarshal_lock. rewrite Hjson. destruct Hv as [->|(lock & -> & Hroot)].
    - by exists ∅.
    - exists lock. split; [done|].
      destruct (extractNpmPackages lock) as [|d ds] eqn:Hdeps; [done|]. exfalso.
      assert (d ∈ extractNpmPackages lock) as Hd by (rewrite Hdeps; apply list_elem_of_here).
      destruct (lock !! "packages") as [[]|] eqn:Hp;
        try (unfold extractNpmPackages in Hd; rewrite Hp in Hd; by apply elem_of_nil in Hd).
      destruct (proj1 (elem_of_extract _ _ d Hp) Hd) as (k & entry & Hk & Hne & _).
      by apply Hne, (Hroot m k entry). }
  unfold scanCmd_Run. cbv zeta. by rewrite Hread, Hlock, Hnil.
Qed.

Lemma X10_nothing_to_scan_witness :
  scanCmd_Run world_null "package-lock.json"
  = {| output := [NoDependenciesFound]; requests := []; exit := Returned |}.
Proof.
  apply (X10_nothing_to_scan world_null "package-lock.json" "null" ANil).
  - reflexivity.
  - reflexivity.
  - by left.
Defined.

(** X11.  Every request of a run is for the ecosystem "npm" and for a
    record of the lockfile's "packages" map under a key other than "":
    its name is the name extracted from the key and its version is the
    version of the record, which is not empty. *)
Theorem X11_request_provenance (w : World) (arg : string) (q : osvQuery) :
  q ∈ requests (scanCmd_Run w arg) ->
  exists data lock packages k entry,
    ReadFile w (Clean w arg) = Ok data
    /\ Unmarshal_lock w data = Ok lock
    /\ lock !! "packages" = Some (AMap packages)
    /\ packages !! k = Some (AMap entry) /\ k <> ""
    /\ entry_version entry <> ""
    /\ q = {| Package := {| Ecosystem := "npm"; Name := package_name k |};
              Version := entry_version entry |}.
Proof.
  destruct (ReadFile w (Clean w arg)) as [data|err] eqn:Hread.
  - destruct (Unmarshal_lock w data) as [lock|err] eqn:Hlock.
    + destruct (scanCmd_Run_decoded _ _ _ _ Hread Hlock) as [_ ->].
      intros (d & -> & [[_ Hver] Hd]%list_elem_of_filter)%list_elem_of_fmap.
      destruct (lock !! "packages") as [[]|] eqn:Hp;
        try (unfold extractNpmPackages in Hd; rewrite Hp in Hd; by apply elem_of_nil in Hd).
      destruct (proj1 (elem_of_extract _ _ d Hp) Hd) as (k & entry & Hk & Hne & ->).
      by exists data, lock, m, k, entry.
    + unfold scanCmd_Run. cbv zeta. rewrite Hread, Hlock. by intros ?%elem_of_nil.
  - unfold scanCmd_Run. cbv zeta. rewrite Hread. by intros ?%elem_of_nil.
Qed.

Lemma X11_request_provenance_witness :
  exists data lock packages k entry,
    ReadFile world_offline (Clean world_offline "package-lock.json") = Ok data
    /\ Unmarshal_lock world_offline data = Ok lock
    /\ lock !! "packages" = Some (AMap packages)
    /\ packages !! k = Some (AMap entry) /\ k <> ""
    /\ entry_version entry <> ""
    /\ query_of (Dep "left-pad" "1.3.0")
       = {| Package := {| Ecosystem := "npm"; Name := package_name k |};
            Version := entry_version entry |}.
Proof.
  apply (X11_request_provenance world_offline "package-lock.json").
  vm_compute. apply list_elem_of_here.
Defined.

(** X12.  The summary printed for a vulnerability is a single line of
    at most 113 bytes: 110 of the text and the 3 of the ellipsis. *)
Theorem X12_short_summary_shape (summary : string) :
  strings.len (short_summary summary) <= 113
  /\ strings.Index (short_summary summary) LF = -1.
Proof.
  rewrite short_summary_unfold. cbv zeta.
  destruct (first_line_spec (strings.TrimSpace summary)) as [_ Hno].
  set (line := first_line (strings.TrimSpace summary)) in *.
  destruct (Z.ltb_spec 110 (strings.len line)) as [Hlong|Hshort].
  - split.
    + rewrite len_app. unfold strings.slice_to, strings.len in *.
      rewrite length_take by lia. change (String.length ellipsis) with 3%nat. lia.
    + change LF with (String "010"%char "") in *.
      apply Index_byte_none_app. split; [by apply Index_byte_none_take | by vm_compute].
  - split; [lia|done].
Qed.

(** X13.  The count printed in the header is the number of records of
    the "packages" map under a key other than "", whether or not they
    are queried afterwards; the requests are never more than that. *)
Theorem X13_header_count
    (w : World) (arg data : string) (lock packages : gmap string any) :
  ReadFile w (Clean w arg) = Ok data ->
  Unmarshal_lock w data = Ok lock ->
  lock !! "packages" = Some (AMap packages) ->
  filter yields_dep packages <> ∅ ->
  (exists rest,
     output (scanCmd_Run w arg)
     = Scanning (Z.of_nat (size (filter yields_dep packages))) (Clean w arg) :: rest)
  /\ (length (requests (scanCmd_Run w arg)) <= size (filter yields_dep packages))%nat.
Proof.
  intros Hread Hlock Hp Hsome.
  assert (length (extractNpmPackages lock) = size (filter yields_dep packages)) as Hlen.
  { by rewrite (extract_packages _ _ Hp), length_omap_dep, size_filter_to_list. }
  assert (extractNpmPackages lock <> []) as Hne.
  { intros Hnil. rewrite Hnil in Hlen. symmetry in Hlen.
    by apply map_size_empty_iff in Hlen. }
  split.
  - rewrite (scanCmd_Run_scan _ _ _ _ Hread Hlock Hne). cbv zeta. simpl.
    destruct (scan_loop_printed w (extractNpmPackages lock)
                {| printed := [Scanning (Z.of_nat (length (extractNpmPackages lock)))
                                 (Clean w arg)];
                   posted := []; vulnCount := 0 |}) as [ls ->].
    simpl. rewrite Hlen. by eexists.
  - destruct (scanCmd_Run_decoded _ _ _ _ Hread Hlock) as [_ ->].
    rewrite length_fmap, <- Hlen. apply length_filter.
Qed.

Lemma X13_header_count_witness :
  (exists rest,
     output (scanCmd_Run world_no_versions "package-lock.json")
     = Scanning (Z.of_nat (size (filter yields_dep
                   ({[ "" := record "0.1.0";
                       "node_modules/a" := AMap ∅;
                       "node_modules/b" := AMap {[ "version" := ANil ]} ]}
                    : gmap string any))))
         (Clean world_no_versions "package-lock.json") :: rest)
  /\ (length (requests (scanCmd_Run world_no_versions "package-lock.json"))
      <= size (filter yields_dep
                 ({[ "" := record "0.1.0";
                     "node_modules/a" := AMap ∅;
                     "node_modules/b" := AMap {[ "version" := ANil ]} ]}
                  : gmap string any)))%nat.
Proof.
  apply (X13_header_count world_no_versions "package-lock.json" "{...}" lock_no_versions).
  - reflexivity.
  - reflexivity.
  - reflexivity.
  - intros Hempty. apply (f_equal size) in Hempty. vm_compute in Hempty. discriminate.
Defined.

(** X14.  When no extracted dependency has both a name and a version,
    the run makes no request and still prints the closing line of a
    clean scan after the header. *)
Theorem X14_nothing_queried
    (w : World) (arg data : string) (lock : gmap string any) :
  ReadFile w (Clean w arg) = Ok data ->
  Unmarshal_lock w data = Ok lock ->
  extractNpmPackages lock <> [] ->
  Forall (fun d => name d = "" \/ version d = "") (extractNpmPackages lock) ->
  scanCmd_Run w arg
  = {| output := [Scanning (Z.of_nat (length (extractNpmPackages lock))) (Clean w arg);
                  NoKnownVulnerabilities];
       requests := []; exit := Returned |}.
Proof.
  intros Hread Hlock Hne Hall.
  rewrite (scanCmd_Run_scan _ _ _ _ Hread Hlock Hne). cbv zeta.
  assert (forall deps st,
            Forall (fun d => name d = "" \/ version d = "") deps ->
            scan_loop w deps st = st) as Hskip.
  { induction deps as [|d deps IH]; intros st Hdeps; [done|].
    apply Forall_cons in Hdeps as [Hd Hdeps].
    rewrite scan_loop_cons, scan_dep_skip; [by apply IH|].
    intros [? ?]. by destruct Hd. }
  by rewrite Hskip.
Qed.

Lemma X14_nothing_queried_witness :
  scanCmd_Run world_no_versions "package-lock.json"
  = {| output := [Scanning (Z.of_nat (length (extractNpmPackages lock_no_versions)))
                    (Clean world_no_versions "package-lock.json");
                  NoKnownVulnerabilities];
       requests := []; exit := Returned |}.
Proof.
  apply (X14_nothing_queried world_no_versions "package-lock.json" "{...}" lock_no_versions).
  - reflexivity.
  - reflexivity.
  - by vm_compute.
  - vm_compute. repeat (constructor; [right; reflexivity|]). constructor.
Defined.

Section order_facts.
Context (w : World).
Hypothesis stateless : forall n m q, Post w n q = Post w m q.

(** With a service whose answer depends on the query alone, the body of
    the loop adds to the state a block that depends on the dependency
    alone. *)
Lemma scan_dep_block st d :
  scan_dep w st d
  = {| printed := printed st ++ printed (scan_dep w {| printed := []; posted := []; vulnCount := 0 |} d);
       posted := posted st ++ posted (scan_dep w {| printed := []; posted := []; vulnCount := 0 |} d);
       vulnCount := vulnCount st + vulnCount (scan_dep w {| printed := []; posted := []; vulnCount := 0 |} d) |}.
Proof.
  destruct (decide (queried d)) as [Hq|Hq].
  - rewrite !(scan_dep_queried _ _ _ Hq). cbv zeta.
    rewrite (stateless 0%nat (length (posted st))).
    destruct (Post w _ _) as [body|err]; simpl.
    + destruct (Unmarshal_osvResp w body) as [or|err]; simpl.
      * destruct (0 <? _); simpl; [done|]. destruct st; simpl.
        by rewrite app_nil_r, Z.add_0_r.
      * destruct st; simpl. by rewrite Z.add_0_r.
    + destruct st; simpl. by rewrite Z.add_0_r.
  - rewrite !(scan_dep_skip _ _ _ Hq). destruct st; simpl.
    by rewrite !app_nil_r, Z.add_0_r.
Qed.

Lemma same_report_refl st : same_report st st.
Proof. by unfold same_report. Qed.

Lemma same_report_scan_dep st1 st2 d :
  same_report st1 st2 -> same_report (scan_dep w st1 d) (scan_dep w st2 d).
Proof.
  intros (Hp & Hq & Hc). rewrite (scan_dep_block st1), (scan_dep_block st2).
  unfold same_report. simpl. by rewrite Hp, Hq, Hc.
Qed.

Lemma same_report_swap st1 st2 x y :
  same_report st1 st2 ->
  same_report (scan_dep w (scan_dep w st1 y) x) (scan_dep w (scan_dep w st2 x) y).
Proof.
  intros (Hp & Hq & Hc).
  rewrite (scan_dep_block (scan_dep w st1 y)), (scan_dep_block st1),
          (scan_dep_block (scan_dep w st2 x)), (scan_dep_block st2).
  unfold same_report. simpl. rewrite Hp, Hq, Hc, <- !app_assoc.
  split; [|split; [|lia]].
  - f_equiv. apply Permutation_app_comm.
  - f_equiv. apply Permutation_app_comm.
Qed.

Lemma same_report_scan_loop deps1 deps2 st1 st2 :
  deps1 ≡ₚ deps2 -> same_report st1 st2 ->
  same_report (scan_loop w deps1 st1) (scan_loop w deps2 st2).
Proof.
  intros Hperm. revert st1 st2.
  induction Hperm as [|d l1 l2 _ IH|x y l|l1 l2 l3 _ IH1 _ IH2]; intros st1 st2 Hst.
  - done.
  - rewrite !scan_loop_cons. by apply IH, same_report_scan_dep.
  - rewrite !scan_loop_cons.
    assert (forall l' sa sb, same_report sa sb ->
              same_report (scan_loop w l' sa) (scan_loop w l' sb)) as Hsame.
    { clear Hst. intros l'. induction l' as [|d l' IH]; intros sa sb Hs; [done|].
      rewrite !scan_loop_cons. by apply IH, same_report_scan_dep. }
    by apply Hsame, same_report_swap.
  - destruct (IH1 st1 st1 (same_report_refl _)) as (Hp1 & Hq1 & Hc1).
    destruct (IH2 st1 st2 Hst) as (Hp2 & Hq2 & Hc2).
    unfold same_report. by rewrite Hp1, Hq1, Hc1.
Qed.

End order_facts.

(** X15.  With a service whose answer depends on the query alone, the
    order of the dependencies does not matter: two orders of the same
    dependencies print the same lines and post the same queries, up to
    their order, and count the same number of vulnerabilities. *)
Theorem X15_order_independent
    (w : World) (deps1 deps2 : list dep) (st : scan_state) :
  (forall n m q, Post w n q = Post w m q) ->
  deps1 ≡ₚ deps2 ->
  printed (scan_loop w deps1 st) ≡ₚ printed (scan_loop w deps2 st)
  /\ posted (scan_loop w deps1 st) ≡ₚ posted (scan_loop w deps2 st)
  /\ vulnCount (scan_loop w deps1 st) = vulnCount (scan_loop w deps2 st).
Proof.
  intros Hstateless Hperm.
  apply (same_report_scan_loop w Hstateless deps1 deps2 st st Hperm).
  apply same_report_refl.
Qed.

Lemma X15_order_independent_witness :
  printed (scan_loop world_left_pad [Dep "a" "1.0.0"; Dep "b" "2.0.0"]
             {| printed := []; posted := []; vulnCount := 0 |})
    ≡ₚ printed (scan_loop world_left_pad [Dep "b" "2.0.0"; Dep "a" "1.0.0"]
                  {| printed := []; posted := []; vulnCount := 0 |})
  /\ posted (scan_loop world_left_pad [Dep "a" "1.0.0"; Dep "b" "2.0.0"]
               {| printed := []; posted := []; vulnCount := 0 |})
       ≡ₚ posted (scan_loop world_left_pad [Dep "b" "2.0.0"; Dep "a" "1.0.0"]
                    {| printed := []; posted := []; vulnCount := 0 |})
  /\ vulnCount (scan_loop world_left_pad [Dep "a" "1.0.0"; Dep "b" "2.0.0"]
                  {| printed := []; posted := []; vulnCount := 0 |})
     = vulnCount (scan_loop world_left_pad [Dep "b" "2.0.0"; Dep "a" "1.0.0"]
                    {| printed := []; posted := []; vulnCount := 0 |}).
Proof.
  apply (X15_order_independent world_left_pad).
  - reflexivity.
  - apply Permutation_swap.
Defined.
